(** * MatplotlibVersionedWriter: a shallow embedding

    Source: [kedro/extras/datasets/matplotlib/matplotlib_versioned_writer.py].

    The writer is glue between three collaborators: the [fsspec] filesystem,
    the matplotlib encoder ([savefig]) and the versioning helpers of
    [kedro.io.core].  The collaborators are interfaces (type classes) here;
    the writer's methods are written in a state-and-exception monad over a
    [World] that holds the Python heap, the filesystem, the instance's version
    cache, the clock and the log of calls made to the filesystem. *)

From Stdlib Require Import Strings.Byte Strings.Ascii Strings.String.
From stdpp Require Import base option list strings gmap fin_maps pretty.

Local Open Scope string_scope.
Local Open Scope list_scope.

(** ** Python values and the heap *)

Definition loc := nat.

(** The values a [Dict[str, Any]] holds: atoms, and references to dict
    objects, which live in the heap and can be aliased and mutated. *)
Inductive val :=
| VNone
| VBool (b : bool)
| VInt (z : Z)
| VStr (s : string)
| VRef (l : loc).

Global Instance val_eq_dec : EqDecision val.
Proof. solve_decision. Defined.

Abbreviation dict := (gmap string val).
Abbreviation heap_t := (gmap loc (gmap string val)).
Abbreviation bytes := (list Byte.byte).

(** Python truthiness: [None], [False], [0], the empty string and the empty
    dict are falsy. *)
Definition truthy (h : heap_t) (v : val) : bool :=
  match v with
  | VNone => false
  | VBool b => b
  | VInt z => negb (Z.eqb z 0)
  | VStr s => negb (String.eqb s "")
  | VRef l => negb (bool_decide (h !!! l = (∅ : dict)))
  end.

(** ** Exceptions and outcomes *)

(** What a collaborator raises; the writer never inspects it. *)
Definition backend_error := string.

Inductive exn :=
| DataSetError (msg : string)
| TypeError (msg : string)
| AttributeError (msg : string)
| Raised (e : backend_error).

Inductive outcome (E A : Type) :=
| Returns (a : A)
| Raises (e : E).
Arguments Returns {E A} a.
Arguments Raises {E A} e.

Definition lift_outcome {A} (r : outcome backend_error A) : outcome exn A :=
  match r with
  | Returns a => Returns a
  | Raises e => Raises (Raised e)
  end.

(** ** Calls made to the filesystem object *)

Inductive Event :=
| EvFilesystem (protocol : string) (kwargs : dict)
| EvExists (path : string)
| EvOpen (path : string) (kwargs : dict) (opened : bool)
| EvWrite (path : string) (data : bytes) (written : bool)
| EvClose (path : string)
| EvInvalidate (path : string).

(** ** Data model of the writer *)

Definition PurePath := string.
Definition str (p : PurePath) : string := p.

(** [kedro.io.core.Version]: a named tuple [(load, save)]. *)
Record Version := mkVersion {
  load : option string;
  save : option string;
}.

(** The attributes set by [__init__].  The three mappings are dict objects:
    the instance holds references to them. *)
Record Writer := mkWriter {
  _filepath : PurePath;
  _protocol : string;
  _version : option Version;
  _layer : option string;
  _fs_args : loc;
  _fs_open_args_save : loc;
  _save_args : loc;
}.

(** [data: Union[figure, List[figure], Dict[str, figure]]].  A dict is given
    by its items in iteration order. *)
Inductive Payload (Plot : Type) :=
| SinglePlot (plot : Plot)
| PlotList (plots : list Plot)
| PlotDict (plots : list (string * Plot)).
Arguments SinglePlot {Plot} plot.
Arguments PlotList {Plot} plots.
Arguments PlotDict {Plot} plots.

(** What [_describe] reports under a key: a path, a string, a dict object
    (by reference, not copied), a version descriptor or a layer. *)
Inductive described :=
| DPath (p : PurePath)
| DStr (s : string)
| DDict (l : loc)
| DVersion (v : option Version)
| DLayer (s : option string).

(** ** Collaborators *)

(** The [fsspec] filesystem object [self._fs] and the file objects it opens. *)
Class FileSystem (FS Handle : Type) := {
  filesystem : string → dict → outcome backend_error FS;
  pathsep : string;
  fs_exists : string → FS → outcome backend_error bool * FS;
  fs_open : string → dict → FS → outcome backend_error Handle * FS;
  fh_write : Handle → bytes → FS → outcome backend_error unit * FS;
  fh_close : Handle → FS → outcome backend_error unit * FS;
  fs_invalidate_cache : string → FS → outcome backend_error unit * FS;
}.

(** [plot.savefig(bytes_buffer, **kwargs)] followed by
    [bytes_buffer.getvalue()]. *)
Class Encoder (Plot : Type) := {
  savefig : Plot → dict → outcome backend_error bytes;
}.

(** Helpers of [kedro.io.core] and [pathlib] that the writer calls and whose
    code is not part of the module. *)
Class KedroCore := {
  get_protocol_and_path : string → option Version → string * string;
  PurePosixPath : string → PurePath;
  get_filepath_str : PurePath → string → string;
  versioned_path_of : PurePath → string → PurePath;
  generate_timestamp : nat → string;
  dataset_str : Writer → string;
}.

Section writer.
Context {FS Handle Plot : Type}.
Context `{!FileSystem FS Handle, !Encoder Plot, !KedroCore}.

(** ** The world and the monad *)

Record World := mkWorld {
  heap : heap_t;
  fs : FS;
  version_cache : option string;
  clock : nat;
  log : list Event;
}.

Definition M (A : Type) : Type := World → outcome exn A * World.

#[global] Instance M_ret : MRet M := λ A a σ, (Returns a, σ).
#[global] Instance M_bind : MBind M := λ A B f m σ,
  match m σ with
  | (Returns a, σ') => f a σ'
  | (Raises e, σ') => (Raises e, σ')
  end.

Definition raise {A} (e : exn) : M A := λ σ, (Raises e, σ).

Definition set_heap (h : heap_t) (σ : World) : World :=
  mkWorld h (fs σ) (version_cache σ) (clock σ) (log σ).
Definition set_fs (f : FS) (σ : World) : World :=
  mkWorld (heap σ) f (version_cache σ) (clock σ) (log σ).
Definition set_version_cache (c : option string) (σ : World) : World :=
  mkWorld (heap σ) (fs σ) c (clock σ) (log σ).
Definition set_clock (n : nat) (σ : World) : World :=
  mkWorld (heap σ) (fs σ) (version_cache σ) n (log σ).
Definition set_log (l : list Event) (σ : World) : World :=
  mkWorld (heap σ) (fs σ) (version_cache σ) (clock σ) l.

Definition modify (f : World → World) : M unit := λ σ, (Returns (), f σ).

Definition emit (e : Event) : M unit :=
  modify (λ σ, set_log (log σ ++ [e]) σ).

(** A call of a method of [self._fs] or of a file object. *)
Definition call_fs {A} (op : FS → outcome backend_error A * FS) : M A :=
  λ σ, let '(r, f) := op (fs σ) in (lift_outcome r, set_fs f σ).

Definition is_returned {E A} (r : outcome E A) : bool :=
  match r with Returns _ => true | Raises _ => false end.

(** Python's [try: ... except] as a value: run [m], keep its effects, and
    hand back how it ended. *)
Definition attempt {A} (m : M A) : M (outcome exn A) :=
  λ σ, let '(r, σ') := m σ in (Returns r, σ').

(** ** Dict objects on the heap *)

(** The references a dict holds, and the addresses a heap mentions: those of
    its objects and those its objects refer to. *)
Definition refs_of (d : dict) : list loc :=
  omap (λ kv, match kv.2 with VRef l => Some l | _ => None end) (map_to_list d).

Definition addresses (h : heap_t) : list loc :=
  map_to_list h ≫= (λ ld, ld.1 :: refs_of ld.2).

(** A new object gets an address that nothing mentions yet. *)
Definition next_loc (h : heap_t) : loc := S (max_list (addresses h)).

Definition get_heap : M heap_t := λ σ, (Returns (heap σ), σ).

(** A dict display [{...}]: a new object. *)
Definition new_dict (d : dict) : M val :=
  λ σ, let l := next_loc (heap σ) in
       (Returns (VRef l), set_heap (<[l := d]> (heap σ)) σ).

(** The dict object behind a value; anything else has no dict methods. *)
Definition as_dict (v : val) : M loc :=
  match v with
  | VRef l => mret l
  | _ => raise (AttributeError "object is not a dict")
  end.

Definition read_dict (l : loc) : M dict := λ σ, (Returns (heap σ !!! l), σ).

Definition write_dict (l : loc) (d : dict) : M unit :=
  λ σ, (Returns (), set_heap (<[l := d]> (heap σ)) σ).

(** [d.pop(key, default)] *)
Definition dict_pop (l : loc) (key : string) (default : val) : M val :=
  d ← read_dict l;
  match d !! key with
  | Some v => write_dict l (delete key d) ;; mret v
  | None => mret default
  end.

(** [d.setdefault(key, value)] *)
Definition dict_setdefault (l : loc) (key : string) (value : val) : M val :=
  d ← read_dict l;
  match d !! key with
  | Some v => mret v
  | None => write_dict l (<[key := value]> d) ;; mret value
  end.

(** [d.update(other)]: the entries of [other] win; they are not copied. *)
Definition dict_update (l : loc) (other : val) : M unit :=
  match other with
  | VRef l' => d ← read_dict l; d' ← read_dict l'; write_dict l (d' ∪ d)
  | _ => raise (TypeError "object is not iterable")
  end.

(** [x or {}] *)
Definition or_new_dict (v : val) : M val :=
  h ← get_heap;
  if truthy h v then mret v else new_dict ∅.

(** *** [copy.deepcopy]

    Python's standard library; modelled by what it returns: atoms are
    returned as they are; for a dict, every object reachable from it is
    copied to a new address ([shift_loc]), with the references inside the
    copies redirected to the copies. *)

Definition shift_loc (n : nat) (l : loc) : loc := n + l.

#[global] Instance shift_loc_inj n : Inj (=) (=) (shift_loc n).
Proof. intros x y; unfold shift_loc; lia. Qed.

Definition rename_val (ρ : loc → loc) (v : val) : val :=
  match v with
  | VRef l => VRef (ρ l)
  | _ => v
  end.

Definition reach_step (h : heap_t) (s : gset loc) : gset loc :=
  s ∪ set_bind (λ l, list_to_set (C := gset loc) (refs_of (h !!! l))) s.

Definition reachable (h : heap_t) (roots : gset loc) : gset loc :=
  Nat.iter (size h) (reach_step h) roots.

Definition copy_objects (n : nat) (r : gset loc) (h : heap_t) : heap_t :=
  kmap (M2 := gmap loc) (shift_loc n) (fmap (rename_val (shift_loc n)) <$> filter (λ kv, kv.1 ∈ r) h).

Definition copy_heap (v : val) (h : heap_t) : heap_t :=
  match v with
  | VRef l => h ∪ copy_objects (next_loc h) (reachable h {[l]}) h
  | _ => h
  end.

Definition deepcopy (v : val) : M val :=
  λ σ, (Returns (rename_val (shift_loc (next_loc (heap σ))) v),
        set_heap (copy_heap v (heap σ)) σ).

(** Keyword arguments unpacked from two dicts in one call: a keyword given
    twice is a [TypeError]. *)
Definition merge_kwargs (a b : dict) : M dict :=
  if bool_decide (a ##ₘ b) then mret (a ∪ b)
  else raise (TypeError "got multiple values for keyword argument").

(** [**v]: the keyword arguments held by a dict object. *)
Definition kwargs_of (v : val) : M dict :=
  match v with
  | VRef l => read_dict l
  | _ => raise (TypeError "argument after ** must be a mapping")
  end.

(** ** Calls to the collaborators, logged *)

Definition of_outcome {A} (r : outcome exn A) : M A := λ σ, (r, σ).

(** [fsspec.filesystem(protocol, **kwargs)], assigned to [self._fs]. *)
Definition new_filesystem (protocol : string) (kwargs : dict) : M unit :=
  emit (EvFilesystem protocol kwargs) ;;
  match filesystem protocol kwargs with
  | Returns f => modify (set_fs f)
  | Raises e => raise (Raised e)
  end.

(** [self._fs.exists(path)] *)
Definition exists_ (path : string) : M bool :=
  emit (EvExists path) ;; call_fs (fs_exists path).

(** [self._fs.open(path, **kwargs)] *)
Definition open_ (path : string) (kwargs : dict) : M Handle :=
  r ← attempt (call_fs (fs_open path kwargs));
  emit (EvOpen path kwargs (is_returned r)) ;;
  of_outcome r.

(** [fs_file.write(data)], for the file object opened at [path]. *)
Definition write_ (path : string) (fs_file : Handle) (data : bytes) : M unit :=
  r ← attempt (call_fs (fh_write fs_file data));
  emit (EvWrite path data (is_returned r)) ;;
  of_outcome r.

(** [fs_file.close()], which is what the file object's [__exit__] calls. *)
Definition close_ (path : string) (fs_file : Handle) : M unit :=
  emit (EvClose path) ;; call_fs (fh_close fs_file).

(** [self._fs.invalidate_cache(path)] *)
Definition invalidate_cache_ (path : string) : M unit :=
  emit (EvInvalidate path) ;; call_fs (fs_invalidate_cache path).

(** [with self._fs.open(path, **kwargs) as fs_file: body]: if [open] raises
    there is no file object; otherwise [__exit__] runs however the body
    ends, and the body's exception propagates unless closing raises one of
    its own. *)
Definition with_open {A} (path : string) (kwargs : dict) (body : Handle → M A) : M A :=
  fs_file ← open_ path kwargs;
  r ← attempt (body fs_file);
  c ← attempt (close_ path fs_file);
  match c with
  | Raises e => raise e
  | Returns _ => of_outcome r
  end.

(** [for x in xs: body] *)
Fixpoint for_each {A} (xs : list A) (body : A → M unit) : M unit :=
  match xs with
  | [] => mret ()
  | x :: xs' => body x ;; for_each xs' body
  end.

Definition enumerate {A} (xs : list A) : list (nat * A) := imap pair xs.

(** ** The versioning base class *)

(** Modelled from the spec: the generated save version of
    [AbstractVersionedDataSet] in [kedro.io.core], whose code is not part of
    the module.  It is generated lazily from the clock, at most once, and
    cached by the instance. *)
Definition _fetch_latest_save_version : M string :=
  λ σ, match version_cache σ with
       | Some c => (Returns c, σ)
       | None =>
           let t := generate_timestamp (clock σ) in
           (Returns t, set_version_cache (Some t) (set_clock (S (clock σ)) σ))
       end.

(** Modelled from the spec: [AbstractVersionedDataSet.resolve_save_version]
    of [kedro.io.core].  An explicit save version is reused; otherwise the
    generated one is. *)
Definition resolve_save_version (w : Writer) : M (option string) :=
  match _version w with
  | None => mret None
  | Some v =>
      match save v with
      | Some s => mret (Some s)
      | None => generated ← _fetch_latest_save_version; mret (Some generated)
      end
  end.

(** Modelled from the spec: [AbstractVersionedDataSet._release] of
    [kedro.io.core]: clears the cached generated version. *)
Definition super_release : M unit := modify (set_version_cache None).

(** Modelled from the spec: [AbstractVersionedDataSet.__init__] of
    [kedro.io.core]: a new instance has no cached generated version. *)
Definition super_init : M unit := modify (set_version_cache None).

(** [self._get_versioned_path(version)]; a version of [None] cannot be
    joined to a path. *)
Definition _get_versioned_path (w : Writer) (version : option string) : M PurePath :=
  match version with
  | Some v => mret (versioned_path_of (_filepath w) v)
  | None => raise (TypeError "unsupported operand type(s) for /")
  end.

(** ** The methods of [MatplotlibVersionedWriter] *)

Definition DEFAULT_SAVE_ARGS : dict := ∅.

Definition class_name : string := "MatplotlibVersionedWriter".

Definition __init__ (filepath : string) (fs_args credentials save_args : val)
    (layer : option string) (version : option Version) : M Writer :=
  c ← deepcopy credentials;
  _credentials ← or_new_dict c;
  f ← deepcopy fs_args;
  _fs_args ← or_new_dict f;
  default ← new_dict ∅;
  fs_args_obj ← as_dict _fs_args;
  _fs_open_args_save ← dict_pop fs_args_obj "open_args_save" default;
  open_args_obj ← as_dict _fs_open_args_save;
  dict_setdefault open_args_obj "mode" (VStr "wb") ;;
  let '(protocol, path) := get_protocol_and_path filepath version in
  cred_kwargs ← kwargs_of _credentials;
  fs_kwargs ← kwargs_of _fs_args;
  kwargs ← merge_kwargs cred_kwargs fs_kwargs;
  new_filesystem protocol kwargs ;;
  super_init ;;
  sa ← new_dict DEFAULT_SAVE_ARGS;
  save_args_obj ← as_dict sa;
  (match save_args with
   | VNone => mret ()
   | _ => dict_update save_args_obj save_args
   end) ;;
  mret {| _filepath := PurePosixPath path;
          _protocol := protocol;
          _version := version;
          _layer := layer;
          _fs_args := fs_args_obj;
          _fs_open_args_save := open_args_obj;
          _save_args := save_args_obj |}.

Definition _describe (w : Writer) : M (gmap string described) :=
  mret {[ "filepath" := DPath (_filepath w);
          "protocol" := DStr (_protocol w);
          "fs_args" := DDict (_fs_args w);
          "save_args" := DDict (_save_args w);
          "version" := DVersion (_version w);
          "layer" := DLayer (_layer w) ]}.

Definition _load (w : Writer) : M unit :=
  raise (DataSetError ("Loading not supported for `" +:+ class_name +:+ "`")).

Definition must_not_exist_message (w : Writer) (versioned_path : PurePath) : string :=
  "Save path `" +:+ str versioned_path +:+ "` for " +:+ dataset_str w
    +:+ " must not exist if versioning is enabled.".

Definition _get_save_path (w : Writer) : M PurePath :=
  match _version w with
  | None => mret (_filepath w)
  | Some _ =>
      save_version ← resolve_save_version w;
      versioned_path ← _get_versioned_path w save_version;
      path_exists ← exists_ (str versioned_path);
      save_args ← read_dict (_save_args w);
      h ← get_heap;
      if path_exists && negb (truthy h (default VNone (save_args !! "multiFile")))
      then raise (DataSetError (must_not_exist_message w versioned_path))
      else mret versioned_path
  end.

Definition _save_to_fs (w : Writer) (full_key_path : string) (plot : Plot) : M unit :=
  save_args ← read_dict (_save_args w);
  bytes_buffer ← of_outcome (lift_outcome (savefig plot save_args));
  open_args ← read_dict (_fs_open_args_save w);
  with_open full_key_path open_args
    (λ fs_file, write_ full_key_path fs_file bytes_buffer).

Definition _invalidate_cache (w : Writer) : M unit :=
  let filepath := get_filepath_str (_filepath w) (_protocol w) in
  invalidate_cache_ filepath.

Definition _save (w : Writer) (data : Payload Plot) : M unit :=
  match data with
  | PlotList plots =>
      for_each (enumerate plots) (λ '(index, plot),
        save_path ← _get_save_path w;
        let full_key_path :=
          String.concat pathsep
            [get_filepath_str save_path (_protocol w); pretty index +:+ ".png"] in
        _save_to_fs w full_key_path plot)
  | PlotDict plots =>
      for_each plots (λ '(plot_name, plot),
        save_path ← _get_save_path w;
        let full_key_path :=
          String.concat pathsep
            [get_filepath_str save_path (_protocol w); plot_name] in
        _save_to_fs w full_key_path plot)
  | SinglePlot plot =>
      save_path ← _get_save_path w;
      let full_key_path := get_filepath_str save_path (_protocol w) in
      _save_to_fs w full_key_path plot
  end ;;
  _invalidate_cache w.

Definition _exists (w : Writer) : M bool :=
  let load_path := get_filepath_str (_filepath w) (_protocol w) in
  exists_ load_path.

Definition _release (w : Writer) : M unit :=
  super_release ;;
  _invalidate_cache w.

End writer.

Arguments World : clear implicits.
Arguments M : clear implicits.
Arguments next_loc : simpl never.
Arguments shift_loc : simpl never.

(** ** An in-memory filesystem

    A concrete [FileSystem]: a store of files, a cache of existence answers
    that only [invalidate_cache] clears (and that can be switched off), and
    the buffers of the files currently open.  A path exists when it is a file
    or a directory, that is, a proper prefix (up to a separator) of a file. *)
Module MemFS.

Record t := mk {
  caching : bool;
  files : gmap string bytes;
  exists_cache : gmap string bool;
  open_files : gmap string (string * bytes);
}.

Definition empty : t := mk true ∅ ∅ ∅.

Definition present (fls : gmap string bytes) (path : string) : bool :=
  existsb (λ k, String.eqb k path || String.prefix (path +:+ "/") k)
          (elements (dom fls)).

Definition exists_ (path : string) (m : t) : outcome backend_error bool * t :=
  match exists_cache m !! path with
  | Some b => (Returns b, m)
  | None =>
      let b := present (files m) path in
      if caching m
      then (Returns b, mk true (files m) (<[path := b]> (exists_cache m)) (open_files m))
      else (Returns b, m)
  end.

Definition mode_of (kwargs : dict) : option string :=
  match kwargs !! "mode" with
  | Some (VStr mode) => Some mode
  | _ => None
  end.

Definition open (path : string) (kwargs : dict) (m : t) : outcome backend_error string * t :=
  match mode_of kwargs with
  | Some mode =>
      if String.eqb mode "wb"
      then (Returns path,
            mk (caching m) (files m) (exists_cache m) (<[path := (mode, [])]> (open_files m)))
      else if String.eqb mode "ab"
      then (Returns path,
            mk (caching m) (files m) (exists_cache m)
               (<[path := (mode, default [] (files m !! path))]> (open_files m)))
      else if String.eqb mode "rb"
      then match files m !! path with
           | Some b =>
               (Returns path,
                mk (caching m) (files m) (exists_cache m) (<[path := (mode, b)]> (open_files m)))
           | None => (Raises "FileNotFoundError", m)
           end
      else (Raises "ValueError: invalid mode", m)
  | None => (Raises "ValueError: invalid mode", m)
  end.

Definition write (h : string) (data : bytes) (m : t) : outcome backend_error unit * t :=
  match open_files m !! h with
  | Some (mode, buf) =>
      if String.eqb mode "rb" then (Raises "UnsupportedOperation: not writable", m)
      else (Returns (), mk (caching m) (files m) (exists_cache m) (<[h := (mode, (buf ++ data)%list)]> (open_files m)))
  | None => (Raises "ValueError: I/O operation on closed file", m)
  end.

Definition close (h : string) (m : t) : outcome backend_error unit * t :=
  match open_files m !! h with
  | Some (mode, buf) =>
      if String.eqb mode "rb" then (Returns (), mk (caching m) (files m) (exists_cache m) (delete h (open_files m)))
      else (Returns (), mk (caching m) (<[h := buf]> (files m)) (exists_cache m) (delete h (open_files m)))
  | None => (Returns (), m)
  end.

Definition invalidate_cache (path : string) (m : t) : outcome backend_error unit * t :=
  (Returns (), mk (caching m) (files m) (delete path (exists_cache m)) (open_files m)).

Definition create (protocol : string) (kwargs : dict) : outcome backend_error t :=
  if String.eqb protocol "memory" || String.eqb protocol "file"
  then
    match kwargs !! "use_listings_cache" with
    | Some (VBool false) => Returns (mk false ∅ ∅ ∅)
    | _ => Returns empty
    end
  else Raises "ValueError: Protocol not known".

#[export] Instance memfs : FileSystem t string := {|
  filesystem := create;
  pathsep := "/";
  fs_exists := exists_;
  fs_open := open;
  fh_write := write;
  fh_close := close;
  fs_invalidate_cache := invalidate_cache;
|}.

(** An encoder for examples: a plot is its title; the title ["broken"] cannot
    be rendered; the [format] argument is part of the encoding. *)
#[export] Instance title_encoder : Encoder string := {|
  savefig plot kwargs :=
    if String.eqb plot "broken" then Raises "RuntimeError: cannot render"
    else
      let fmt := match kwargs !! "format" with Some (VStr f) => f | _ => "png" end in
      Returns (String.list_byte_of_string (fmt +:+ ":" +:+ plot));
|}.

(** [path.split("://", 1)] *)
Fixpoint split_protocol (acc path : string) : option (string * string) :=
  match path with
  | String ":"%char (String "/"%char (String "/"%char rest)) => Some (acc, rest)
  | String c rest => split_protocol (acc +:+ String c "") rest
  | "" => None
  end.

(** The last segment of a path and what precedes it. *)
Fixpoint split_last (path : string) : string * string :=
  match path with
  | "" => ("", "")
  | String c rest =>
      if existsb (Ascii.eqb "/"%char) (list_ascii_of_string rest)
      then let '(parent, name) := split_last rest in (String c parent, name)
      else if Ascii.eqb c "/"%char then ("", rest)
      else ("", String c rest)
  end.

(** Modelled from the spec: the versioned layout
    [<parent>/<version-id>/<filename>] of the versioning base class. *)
Definition versioned_layout (path : PurePath) (version : string) : PurePath :=
  let '(parent, name) := split_last path in
  if String.eqb parent "" then version +:+ "/" +:+ name
  else parent +:+ "/" +:+ version +:+ "/" +:+ name.

#[export] Instance core : KedroCore := {|
  get_protocol_and_path filepath _ :=
    match split_protocol "" filepath with
    | Some (protocol, path) => (protocol, path)
    | None => ("file", filepath)
    end;
  PurePosixPath path := path;
  get_filepath_str path protocol :=
    if String.eqb protocol "http" || String.eqb protocol "https"
    then protocol +:+ "://" +:+ path
    else path;
  versioned_path_of := versioned_layout;
  generate_timestamp n := "2020-01-01T00.00." +:+ pretty n;
  dataset_str w := class_name +:+ "(filepath=" +:+ _filepath w +:+ ")";
|}.

End MemFS.

(** ** Example writers and worlds on the in-memory filesystem *)
Module Examples.
Import MemFS.

(** The dict objects of a writer built with no arguments: [_fs_args] at 1,
    [_fs_open_args_save] at 2, [_save_args] at 3. *)
Definition heap_default : heap_t :=
  {[ 1 := ∅; 2 := {[ "mode" := VStr "wb" ]}; 3 := ∅ ]}.


Definition plain : Writer :=
  mkWriter "bucket/plot.png" "memory" None None 1 2 3.

(** [Version(None, None)]: the save version is generated. *)
Definition versioned : Writer :=
  mkWriter "bucket/plot.png" "memory" (Some (mkVersion None None)) None 1 2 3.

(** [Version(None, "v1")] *)
Definition pinned : Writer :=
  mkWriter "bucket/plot.png" "memory" (Some (mkVersion None (Some "v1"))) None 1 2 3.

Definition world (h : heap_t) (f : MemFS.t) : World MemFS.t :=
  mkWorld h f None 0 [].

Definition fresh : World MemFS.t := world heap_default MemFS.empty.

Definition fresh_uncached : World MemFS.t :=
  world heap_default (MemFS.mk false ∅ ∅ ∅).

(** A store in which version [v1] of the plot has been saved already. *)
Definition saved_v1 : MemFS.t :=
  MemFS.mk true {[ "bucket/v1/plot.png" := String.list_byte_of_string "png:old" ]} ∅ ∅.

Definition two_plots : Payload string := PlotList ["a"; "b"].

Definition named_plots : Payload string := PlotDict [("blue", "a"); ("red", "b")].


(** The caller asked for files opened for reading: writing to them raises. *)
Definition heap_read_mode : heap_t :=
  <[ 2 := {[ "mode" := VStr "rb" ]} ]> heap_default.

(** The mappings of a caller: credentials at 10 (with a nested mapping at
    11), [fs_args] at 20 (with its [open_args_save] at 21), [save_args] at
    30. *)
Definition caller_heap : heap_t :=
  {[ 10 := {[ "client_kwargs" := VRef 11 ]};
     11 := {[ "aws_access_key_id" := VStr "testing" ]};
     20 := {[ "open_args_save" := VRef 21; "project" := VStr "my-project" ]};
     21 := {[ "compression" := VStr "gzip" ]};
     30 := {[ "k1" := VStr "v1"; "index" := VStr "value" ]} ]}.

Definition caller_world : World MemFS.t := world caller_heap MemFS.empty.


(** A store in which the plot has been saved, unversioned, already. *)
Definition saved_plain : MemFS.t :=
  MemFS.mk true {[ "bucket/plot.png" := String.list_byte_of_string "png:old" ]} ∅ ∅.

End Examples.

(** ** Reading a log *)

(** Projections of a log. *)
Definition writes (evs : list Event) : list (string * bytes) :=
  omap (λ e, match e with EvWrite p b true => Some (p, b) | _ => None end) evs.


Definition open_calls (evs : list Event) : list string :=
  omap (λ e, match e with EvOpen p _ _ => Some p | _ => None end) evs.

Definition exists_calls (evs : list Event) : list string :=
  omap (λ e, match e with EvExists p => Some p | _ => None end) evs.

Definition invalidations (evs : list Event) : list string :=
  omap (λ e, match e with EvInvalidate p => Some p | _ => None end) evs.

Definition open_kwargs (evs : list Event) : list dict :=
  omap (λ e, match e with EvOpen _ kwargs _ => Some kwargs | _ => None end) evs.

Fixpoint remove_first (p : string) (ps : list string) : list string :=
  match ps with
  | [] => []
  | q :: ps' => if String.eqb p q then ps' else q :: remove_first p ps'
  end.

(** The file objects that are open after a log: opened and not yet closed. *)
Definition handle_step (acc : list string) (e : Event) : list string :=
  match e with
  | EvOpen p _ true => p :: acc
  | EvClose p => remove_first p acc
  | _ => acc
  end.


(** A stretch of log that leaves open exactly the file objects it found
    open. *)
Definition closed_trace (evs : list Event) : Prop :=
  ∀ acc, foldl handle_step acc evs = acc.

(** ** Vocabulary for the statements *)

Section vocabulary.
Context {FS Handle Plot : Type}.
Context `{!FileSystem FS Handle, !Encoder Plot, !KedroCore}.

(** The unversioned declared path, as the filesystem is asked about it. *)
Definition declared_path (w : Writer) : string :=
  get_filepath_str (_filepath w) (_protocol w).

(** The sub-path of an element under the resolved base: the base itself for
    a single plot, [<base><pathsep><suffix>] for an element of a collection. *)
Definition key_path (base : string) (suffix : option string) : string :=
  match suffix with
  | None => base
  | Some s => String.concat pathsep [base; s]
  end.

(** The elements a payload is written as, in order, each with its suffix. *)
Definition elements_of (data : Payload Plot) : list (option string * Plot) :=
  match data with
  | SinglePlot plot => [(None, plot)]
  | PlotList plots => imap (λ index plot, (Some (pretty index +:+ ".png"), plot)) plots
  | PlotDict plots => (λ '(plot_name, plot), (Some plot_name, plot)) <$> plots
  end.

(** What [_save] does for one element: resolve the path, then write. *)
Definition save_element (w : Writer) (x : option string * Plot) : M FS unit :=
  save_path ← _get_save_path w;
  _save_to_fs w (key_path (get_filepath_str save_path (_protocol w)) x.1) x.2.

(** The save version that a resolution made in world [σ] yields. *)
Definition save_version_in (v : Version) (σ : World FS) : string :=
  match save v with
  | Some s => s
  | None =>
      match version_cache σ with
      | Some c => c
      | None => generate_timestamp (clock σ)
      end
  end.

(** The path that a resolution made in world [σ] yields when it succeeds. *)
Definition save_path_in (w : Writer) (σ : World FS) : PurePath :=
  match _version w with
  | None => _filepath w
  | Some v => versioned_path_of (_filepath w) (save_version_in v σ)
  end.

(** The value of [self._save_args.get("multiFile")], as a condition. *)
Definition multi_file (w : Writer) (σ : World FS) : bool :=
  truthy (heap σ) (default VNone ((heap σ !!! _save_args w) !! "multiFile")).

(** The mapping a caller passed: the dict behind a reference; nothing for
    [None]. *)
Definition caller_mapping (h : heap_t) (v : val) : dict :=
  match v with
  | VRef l => h !!! l
  | _ => ∅
  end.

(** The nested [open_args_save] mapping of the caller's [fs_args]. *)
Definition caller_open_args (h : heap_t) (fs_args : val) : dict :=
  caller_mapping h (default VNone (caller_mapping h fs_args !! "open_args_save")).

(** An argument refers to an object that exists. *)
Definition valid_arg (h : heap_t) (v : val) : Prop :=
  match v with
  | VRef l => is_Some (h !! l)
  | _ => True
  end.

(** An argument typed [Dict[str, Any] = None]: a dict object or [None]. *)
Definition mapping_or_none (v : val) : Prop :=
  match v with
  | VNone | VRef _ => True
  | _ => False
  end.

(** The caller's [fs_args] is not its own [open_args_save] entry. *)
Definition not_self_nested (h : heap_t) (fs_args : val) : Prop :=
  caller_mapping h fs_args !! "open_args_save" ≠ Some fs_args.

(** One object refers to another, directly or through other objects. *)
Definition reaches (h : heap_t) : relation loc :=
  rtc (λ a b, ∃ d k, h !! a = Some d ∧ d !! k = Some (VRef b)).

(** Objects at or above [n] refer only to objects at or above [n]. *)
Definition fresh_region (n : loc) (h : heap_t) : Prop :=
  ∀ (a : loc) (d : dict) (k : string) (l : loc),
    h !! a = Some d → (n ≤ a)%nat → d !! k = Some (VRef l) → (n ≤ l)%nat.

(** The events of the log that a world has beyond an earlier one. *)
Definition events_since (σ σ' : World FS) : list Event :=
  drop (length (log σ)) (log σ').

(** The calls by which one element is written when nothing raises: the
    existence check if there is a version descriptor, then open, write and
    close at the element's path. *)
Definition element_events (w : Writer) (σ : World FS)
    (suffix : option string) (data : bytes) : list Event :=
  let path := key_path (get_filepath_str (save_path_in w σ) (_protocol w)) suffix in
  (match _version w with
   | Some _ => [EvExists (str (save_path_in w σ))]
   | None => []
   end) ++
  [EvOpen path (heap σ !!! _fs_open_args_save w) true; EvWrite path data true; EvClose path].

(** The bytes the encoder produces for a plot with the writer's merged
    encoder arguments. *)
Definition direct_encoding (w : Writer) (σ : World FS) (plot : Plot) : outcome backend_error bytes :=
  savefig plot (heap σ !!! _save_args w).

(** A path at or directly under a base. *)
Definition under (base path : string) : Prop :=
  ∃ suffix, path = key_path base suffix.

(** Between two worlds a save version was generated at most once: either
    the clock stood still and a cached version stayed, or there was none,
    the clock ticked once and there is one now. *)
Definition generated_at_most_once (σ σ' : World FS) : Prop :=
  (clock σ' = clock σ ∧ (is_Some (version_cache σ) → version_cache σ' = version_cache σ))
  ∨ (version_cache σ = None ∧ is_Some (version_cache σ') ∧ clock σ' = S (clock σ)).

(** What every element of a save leaves as it found it, however it ends. *)
Definition steady (w : Writer) (σ σ' : World FS) : Prop :=
  heap σ' = heap σ ∧
  save_path_in w σ' = save_path_in w σ ∧
  generated_at_most_once σ σ' ∧
  ∃ evs, log σ' = log σ ++ evs ∧
    closed_trace evs ∧
    invalidations evs = [] ∧
    Forall (under (get_filepath_str (save_path_in w σ) (_protocol w))) (open_calls evs).

End vocabulary.

(** ** Facts about the monad and the loop *)

(** Unfolds the monadic operations down to functions on worlds. *)
Ltac unfold_M :=
  unfold mbind, M_bind, mret, M_ret, raise, modify, emit,
    of_outcome, attempt, call_fs, get_heap, read_dict, write_dict in *.

Section facts.
Context {FS Handle Plot : Type}.
Context `{!FileSystem FS Handle, !Encoder Plot, !KedroCore}.
Implicit Types (σ : World FS) (w : Writer).

Lemma for_each_app {A} (xs ys : list A) (body : A → M FS unit) σ :
  for_each (xs ++ ys) body σ =
  match for_each xs body σ with
  | (Returns _, σ1) => for_each ys body σ1
  | (Raises e, σ1) => (Raises e, σ1)
  end.
Proof.
  revert σ. induction xs as [|x xs IH]; intros σ; simpl; [done|].
  unfold mbind, M_bind. destruct (body x σ) as [[[]|e] σ1]; [apply IH|done].
Qed.

(** The loop stops at the first element whose body raises; the world is then
    the one that element left. *)
Lemma for_each_raises {A} (xs : list A) (body : A → M FS unit) σ e σ' :
  for_each xs body σ = (Raises e, σ') →
  ∃ k x σk, xs !! k = Some x ∧
    for_each (take k xs) body σ = (Returns (), σk) ∧
    body x σk = (Raises e, σ').
Proof.
  revert σ. induction xs as [|x xs IH]; intros σ; simpl; [done|].
  unfold mbind, M_bind. destruct (body x σ) as [[[]|e1] σ1] eqn:Hx.
  - intros (k & y & σk & Hk & Hpre & Hy)%IH.
    exists (S k), y, σk. simpl. unfold mbind, M_bind. by rewrite Hx.
  - intros [= -> ->]. by exists 0, x, σ.
Qed.

Lemma for_each_returns {A} (xs : list A) (body : A → M FS unit) σ u σ' k :
  for_each xs body σ = (Returns u, σ') →
  ∃ σk, for_each (take k xs) body σ = (Returns (), σk).
Proof.
  rewrite <-(take_drop k xs) at 1. rewrite for_each_app.
  destruct (for_each (take k xs) body σ) as [[[]|e1] σ1]; [eauto|done].
Qed.

Lemma snoc_snoc {A} (l : list A) a b : (l ++ [a]) ++ [b] = l ++ [a; b].
Proof. by rewrite <-app_assoc. Qed.

(** [_save_to_fs] in full: what it returns and the world it leaves, by how
    the encoder and the three filesystem calls end. *)
Lemma _save_to_fs_unfold w p plot σ :
  _save_to_fs w p plot σ =
  match savefig plot (heap σ !!! _save_args w) with
  | Raises e => (Raises (Raised e), σ)
  | Returns b =>
      let oa := heap σ !!! _fs_open_args_save w in
      let '(ro, f1) := fs_open p oa (fs σ) in
      match ro with
      | Raises e =>
          (Raises (Raised e),
           mkWorld (heap σ) f1 (version_cache σ) (clock σ)
             (log σ ++ [EvOpen p oa false]))
      | Returns h =>
          let '(rw, f2) := fh_write h b f1 in
          let '(rc, f3) := fh_close h f2 in
          (match rc with
           | Raises e => Raises (Raised e)
           | Returns _ => lift_outcome rw
           end,
           mkWorld (heap σ) f3 (version_cache σ) (clock σ)
             (log σ ++ [EvOpen p oa true; EvWrite p b (is_returned rw); EvClose p]))
      end
  end.
Proof.
  unfold _save_to_fs, with_open, open_, write_, close_. unfold_M.
  destruct σ as [h f vc c l]; simpl.
  destruct (savefig plot (h !!! _save_args w)) as [b|e]; simpl; [|done].
  destruct (fs_open p (h !!! _fs_open_args_save w) f) as [[hd|e] f1]; simpl; [|done].
  destruct (fh_write hd b f1) as [[[]|e] f2]; simpl;
    destruct (fh_close hd f2) as [[[]|e'] f3]; simpl;
    unfold set_log, set_fs; simpl; by rewrite <-?app_assoc.
Qed.

(** [_get_save_path] in full.  With a version descriptor the version cache
    holds the version used afterwards, the clock has advanced only if the
    version was generated now, and [exists] has been asked once. *)
Lemma _get_save_path_unfold w σ :
  _get_save_path w σ =
  match _version w with
  | None => (Returns (_filepath w), σ)
  | Some v =>
      let vp := versioned_path_of (_filepath w) (save_version_in v σ) in
      let vc := match save v with
                | Some _ => version_cache σ
                | None => Some (save_version_in v σ)
                end in
      let ck := match save v, version_cache σ with
                | None, None => S (clock σ)
                | _, _ => clock σ
                end in
      let '(re, f1) := fs_exists (str vp) (fs σ) in
      (match re with
       | Raises e => Raises (Raised e)
       | Returns b =>
           if b && negb (multi_file w σ)
           then Raises (DataSetError (must_not_exist_message w vp))
           else Returns vp
       end,
       mkWorld (heap σ) f1 vc ck (log σ ++ [EvExists (str vp)]))
  end.
Proof.
  unfold _get_save_path, resolve_save_version, _fetch_latest_save_version,
    _get_versioned_path, exists_, save_version_in, multi_file.
  destruct (_version w) as [v|]; [|done].
  unfold_M. destruct σ as [h f vc c l]; simpl.
  destruct (save v) as [s|]; simpl.
  - destruct (fs_exists _ f) as [[b|e] f1]; simpl; [|done].
    by destruct (b && _).
  - destruct vc as [cv|]; simpl.
    + destruct (fs_exists _ f) as [[b|e] f1]; simpl; [|done].
      by destruct (b && _).
    + destruct (fs_exists _ f) as [[b|e] f1]; simpl; [|done].
      by destruct (b && _).
Qed.

Lemma _invalidate_cache_unfold w σ :
  _invalidate_cache w σ =
  let '(r, f1) := fs_invalidate_cache (declared_path w) (fs σ) in
  (lift_outcome r,
   mkWorld (heap σ) f1 (version_cache σ) (clock σ)
     (log σ ++ [EvInvalidate (declared_path w)])).
Proof.
  unfold _invalidate_cache, invalidate_cache_, declared_path. unfold_M.
  destruct σ as [h f vc c l]; simpl. by destruct (fs_invalidate_cache _ f).
Qed.

Lemma for_each_ext {A} (xs : list A) (b1 b2 : A → M FS unit) σ :
  (∀ x σ1, b1 x σ1 = b2 x σ1) → for_each xs b1 σ = for_each xs b2 σ.
Proof.
  intros Hb. revert σ. induction xs as [|x xs IH]; intros σ; simpl; [done|].
  unfold mbind, M_bind. rewrite Hb. by destruct (b2 x σ) as [[[]|e] σ1].
Qed.

Lemma for_each_fmap {A B} (f : A → B) (xs : list A) (body : B → M FS unit) σ :
  for_each (f <$> xs) body σ = for_each xs (body ∘ f) σ.
Proof.
  revert σ. induction xs as [|x xs IH]; intros σ; simpl; [done|].
  unfold mbind, M_bind. by destruct (body (f x) σ) as [[[]|e] σ1].
Qed.

Lemma imap_pair_fmap {A B} (g : nat → A → B) (xs : list A) :
  imap g xs = (λ '(i, x), g i x) <$> imap pair xs.
Proof.
  apply list_eq; intros i. rewrite list_lookup_fmap, !list_lookup_imap.
  by destruct (xs !! i).
Qed.

(** [_save] is a loop over the elements of the payload, then the
    invalidation. *)
Lemma _save_unfold w (data : Payload Plot) σ :
  _save w data σ =
  match for_each (elements_of data) (save_element w) σ with
  | (Returns _, σ1) => _invalidate_cache w σ1
  | (Raises e, σ1) => (Raises e, σ1)
  end.
Proof.
  unfold _save. unfold mbind at 1. unfold M_bind at 1.
  assert (∀ m1 m2 : outcome exn () * World FS, m1 = m2 →
    match m1 with (Returns _, σ1) => _invalidate_cache w σ1 | (Raises e, σ1) => (Raises e, σ1) end =
    match m2 with (Returns _, σ1) => _invalidate_cache w σ1 | (Raises e, σ1) => (Raises e, σ1) end)
    as Hcong by (by intros ?? ->).
  apply Hcong. destruct data as [plot|plots|plots]; simpl.
  - unfold save_element; simpl. unfold mbind, M_bind.
    destruct (_get_save_path w σ) as [[sp|e] σ1]; [|done].
    by destruct (_save_to_fs w _ plot σ1) as [[[]|e] σ2].
  - unfold enumerate.
    rewrite (imap_pair_fmap (λ index plot, (Some (pretty index +:+ ".png"), plot))).
    rewrite for_each_fmap.
    apply for_each_ext. by intros [index plot] σ1.
  - rewrite for_each_fmap. apply for_each_ext. by intros [name plot] σ1.
Qed.

(** *** What stays the same across the elements of a save *)

Lemma remove_first_head p ps : remove_first p (p :: ps) = ps.
Proof. simpl. by rewrite String.eqb_refl. Qed.

Lemma closed_trace_nil : closed_trace [].
Proof. by intros acc. Qed.

Lemma closed_trace_app evs1 evs2 :
  closed_trace evs1 → closed_trace evs2 → closed_trace (evs1 ++ evs2).
Proof. intros H1 H2 acc. by rewrite foldl_app, H1, H2. Qed.


Lemma generated_at_most_once_refl σ : generated_at_most_once σ σ.
Proof. by left. Qed.

Lemma generated_at_most_once_trans σ1 σ2 σ3 :
  generated_at_most_once σ1 σ2 → generated_at_most_once σ2 σ3 →
  generated_at_most_once σ1 σ3.
Proof.
  intros [[Hc1 Hv1]|(Hn1 & Hs1 & Hc1)] [[Hc2 Hv2]|(Hn2 & Hs2 & Hc2)].
  - left. split; [congruence|]. intros Hs. rewrite Hv2, Hv1; [done..|].
    by rewrite Hv1.
  - right. split_and!; [|done|congruence].
    destruct (version_cache σ1) as [c|] eqn:Hvc; [|done].
    rewrite Hv1 in Hn2 by done. done.
  - right. split_and!; [done| |congruence]. by rewrite Hv2.
  - rewrite Hn2 in Hs1. by destruct Hs1.
Qed.

Lemma steady_refl w σ : steady w σ σ.
Proof.
  split_and!; [done|done|apply generated_at_most_once_refl|].
  exists []. rewrite app_nil_r. split_and!; [done|apply closed_trace_nil|done|constructor].
Qed.

Lemma steady_trans w σ1 σ2 σ3 :
  steady w σ1 σ2 → steady w σ2 σ3 → steady w σ1 σ3.
Proof.
  intros (Hh1 & Hp1 & Hg1 & evs1 & Hl1 & Hc1 & Hi1 & Hu1)
         (Hh2 & Hp2 & Hg2 & evs2 & Hl2 & Hc2 & Hi2 & Hu2).
  split_and!; [congruence|congruence|by eapply generated_at_most_once_trans|].
  exists (evs1 ++ evs2). split_and!.
  - by rewrite Hl2, Hl1, app_assoc.
  - by apply closed_trace_app.
  - unfold invalidations in *. by rewrite omap_app, Hi1, Hi2.
  - unfold open_calls in *. rewrite omap_app. apply Forall_app. split; [done|].
    by rewrite <-Hp1.
Qed.

Local Ltac steady_frame :=
  split; [done|];
  split; [repeat match goal with x := _ |- _ => subst x end;
          unfold save_version_in; simpl; by repeat case_match|];
  split; [unfold generated_at_most_once, save_version_in; simpl;
          repeat case_match; naive_solver|].

Lemma save_element_steady w (x : option string * Plot) σ :
  steady w σ (save_element w x σ).2.
Proof.
  unfold save_element, mbind, M_bind. rewrite _get_save_path_unfold.
  unfold steady, save_path_in.
  destruct (_version w) as [v|] eqn:Hv.
  - (* with a version descriptor *)
    set (vp := versioned_path_of (_filepath w) (save_version_in v σ)).
    destruct (fs_exists (str vp) (fs σ)) as [[b|e] f1]; simpl.
    2:{ steady_frame.
        exists [EvExists (str vp)]. split_and!; [done|by intros ?|done|constructor]. }
    destruct (b && negb (multi_file w σ)); simpl.
    { steady_frame.
      exists [EvExists (str vp)]. split_and!; [done|by intros ?|done|constructor]. }
    rewrite _save_to_fs_unfold; simpl.
    destruct (savefig x.2 _) as [bs|e]; simpl.
    2:{ steady_frame.
        exists [EvExists (str vp)]. split_and!; [done|by intros ?|done|constructor]. }
    destruct (fs_open _ _ f1) as [[hd|e] f2]; simpl.
    2:{ steady_frame.
        eexists [EvExists (str vp); EvOpen _ _ false].
        split_and!; [by rewrite <-app_assoc|by intros ?|done|].
        repeat constructor. by eexists. }
    destruct (fh_write hd bs f2) as [rw f3], (fh_close hd f3) as [rc f4]; simpl.
    steady_frame.
    eexists [EvExists (str vp); EvOpen _ _ true; EvWrite _ _ _; EvClose _].
    split_and!; [by rewrite <-app_assoc| |done|].
    + intros acc; simpl. by rewrite String.eqb_refl.
    + repeat constructor. by eexists.
  - (* without *)
    rewrite _save_to_fs_unfold; simpl.
    destruct (savefig x.2 _) as [bs|e]; simpl.
    2:{ split_and!; [done|done|by left|]. exists []. rewrite app_nil_r.
        split_and!; [done|by intros ?|done|constructor]. }
    destruct (fs_open _ _ (fs σ)) as [[hd|e] f2]; simpl.
    2:{ split_and!; [done|done|by left|].
        eexists [EvOpen _ _ false].
        split_and!; [done|by intros ?|done|]. repeat constructor. by eexists. }
    destruct (fh_write hd bs f2) as [rw f3], (fh_close hd f3) as [rc f4]; simpl.
    split_and!; [done|done|by left|].
    eexists [EvOpen _ _ true; EvWrite _ _ _; EvClose _].
    split_and!; [done| |done|].
    + intros acc; simpl. by rewrite String.eqb_refl.
    + repeat constructor. by eexists.
Qed.

Lemma for_each_steady w (xs : list (option string * Plot)) σ :
  steady w σ (for_each xs (save_element w) σ).2.
Proof.
  revert σ. induction xs as [|x xs IH]; intros σ; simpl; [apply steady_refl|].
  unfold mbind, M_bind. pose proof (save_element_steady w x σ) as Hx.
  destruct (save_element w x σ) as [[[]|e] σ1]; simpl in *; [|done].
  eapply steady_trans; [done|apply IH].
Qed.

Lemma events_since_app σ σ' evs :
  log σ' = log σ ++ evs → events_since σ σ' = evs.
Proof. intros Hl. unfold events_since. rewrite Hl. apply drop_app_length. Qed.

(** [_save] as a whole: what holds of the world it leaves, however it ends. *)
Lemma _save_frame w (data : Payload Plot) σ :
  heap (_save w data σ).2 = heap σ ∧
  save_path_in w (_save w data σ).2 = save_path_in w σ ∧
  generated_at_most_once σ (_save w data σ).2 ∧
  ∃ evs, log (_save w data σ).2 = log σ ++ evs ∧
    closed_trace evs ∧
    Forall (under (get_filepath_str (save_path_in w σ) (_protocol w))) (open_calls evs) ∧
    match (_save w data σ).1 with
    | Returns _ =>
        invalidations evs = [declared_path w] ∧
        last evs = Some (EvInvalidate (declared_path w))
    | Raises _ => True
    end.
Proof.
  rewrite _save_unfold.
  pose proof (for_each_steady w (elements_of data) σ) as Hloop.
  destruct (for_each _ _ σ) as [[[]|e] σ1]; simpl in *.
  - destruct Hloop as (Hh & Hp & Hg & evs & Hl & Hc & Hi & Hu).
    rewrite _invalidate_cache_unfold.
    destruct (fs_invalidate_cache _ (fs σ1)) as [r f1]; simpl.
    split_and!; [done| | |].
    { revert Hp. unfold save_path_in, save_version_in. simpl. done. }
    { destruct Hg as [[Hc1 Hv1]|(Hn1 & Hs1 & Hc1)]; [by left|by right]. }
    exists (evs ++ [EvInvalidate (declared_path w)]).
    split_and!.
    + by rewrite Hl, <-app_assoc.
    + apply closed_trace_app; [done|by intros ?].
    + unfold open_calls in *. rewrite omap_app. simpl. by rewrite app_nil_r.
    + destruct r; simpl; [|done]. split.
      * unfold invalidations in *. rewrite omap_app, Hi. done.
      * by rewrite last_snoc.
  - destruct Hloop as (Hh & Hp & Hg & evs & Hl & Hc & Hi & Hu).
    split_and!; [done..|]. exists evs. by split_and!.
Qed.

(** *** The trace of a save that returns *)

Lemma save_element_returns w (x : option string * Plot) σ σ' :
  save_element w x σ = (Returns (), σ') →
  ∃ b, direct_encoding w σ x.2 = Returns b ∧
    log σ' = log σ ++ element_events w σ x.1 b.
Proof.
  unfold save_element, mbind, M_bind, direct_encoding, element_events.
  rewrite _get_save_path_unfold. unfold save_path_in.
  destruct (_version w) as [v|] eqn:Hv.
  - destruct (fs_exists _ (fs σ)) as [[b|e] f1]; simpl; [|done].
    destruct (b && negb (multi_file w σ)); simpl; [done|].
    rewrite _save_to_fs_unfold; simpl.
    destruct (savefig x.2 _) as [bs|e]; simpl; [|done].
    destruct (fs_open _ _ f1) as [[hd|e] f2]; simpl; [|done].
    destruct (fh_write hd bs f2) as [[[]|e] f3], (fh_close hd f3) as [[[]|e'] f4];
      simpl; try done.
    intros [= <-]; simpl. exists bs. by rewrite <-app_assoc.
  - rewrite _save_to_fs_unfold; simpl.
    destruct (savefig x.2 _) as [bs|e]; simpl; [|done].
    destruct (fs_open _ _ (fs σ)) as [[hd|e] f2]; simpl; [|done].
    destruct (fh_write hd bs f2) as [[[]|e] f3], (fh_close hd f3) as [[[]|e'] f4];
      simpl; try done.
    intros [= <-]; simpl. by exists bs.
Qed.

Lemma element_events_steady w σ σ' suffix b :
  steady w σ σ' → element_events w σ' suffix b = element_events w σ suffix b.
Proof. intros (Hh & Hp & _). unfold element_events. by rewrite Hh, Hp. Qed.

(** A loop that returns has written every element, in order, by
    [element_events]. *)
Lemma for_each_returns_trace w (xs : list (option string * Plot)) σ σ' :
  for_each xs (save_element w) σ = (Returns (), σ') →
  ∃ bs, Forall2 (λ x b, direct_encoding w σ x.2 = Returns b) xs bs ∧
    log σ' = log σ ++ concat (zip_with (λ x b, element_events w σ x.1 b) xs bs).
Proof.
  revert σ. induction xs as [|x xs IH]; intros σ; simpl.
  - intros [= <-]. exists []. split; [constructor|]. by rewrite app_nil_r.
  - unfold mbind, M_bind.
    pose proof (save_element_steady w x σ) as Hst.
    destruct (save_element w x σ) as [[[]|e] σ1] eqn:Hx; [|done]. simpl in Hst.
    apply save_element_returns in Hx as (b & Hb & Hl).
    intros (bs & Hbs & Hl')%IH. exists (b :: bs). split.
    + constructor; [done|].
      eapply Forall2_impl; [done|]. intros y c. unfold direct_encoding.
      destruct Hst as (-> & _). done.
    + rewrite Hl', Hl, <-app_assoc. simpl. do 2 f_equal.
      f_equal. apply zip_with_ext; [|done..]. intros y c.
      by apply element_events_steady.
Qed.


Lemma exists_calls_app evs1 evs2 :
  exists_calls (evs1 ++ evs2) = exists_calls evs1 ++ exists_calls evs2.
Proof. apply omap_app. Qed.


Lemma exists_calls_element_events w σ suffix b :
  exists_calls (element_events w σ suffix b) =
  match _version w with Some _ => [str (save_path_in w σ)] | None => [] end.
Proof. unfold element_events. by destruct (_version w). Qed.

(** The trace of a save that returns: the elements, then the invalidation. *)
Lemma _save_returns_trace w (data : Payload Plot) σ σ' :
  _save w data σ = (Returns (), σ') →
  ∃ bs, Forall2 (λ x b, direct_encoding w σ x.2 = Returns b) (elements_of data) bs ∧
    events_since σ σ' =
      concat (zip_with (λ x b, element_events w σ x.1 b) (elements_of data) bs)
      ++ [EvInvalidate (declared_path w)].
Proof.
  rewrite _save_unfold.
  destruct (for_each _ _ σ) as [[[]|e] σ1] eqn:Hloop; [|done].
  apply for_each_returns_trace in Hloop as (bs & Hbs & Hl).
  rewrite _invalidate_cache_unfold.
  destruct (fs_invalidate_cache _ (fs σ1)) as [[[]|e] f1]; simpl; [|done].
  intros [= <-]. exists bs. split; [done|].
  apply events_since_app; simpl. by rewrite Hl, <-app_assoc.
Qed.

(** *** What can be raised *)

Lemma multi_file_steady w σ σ' : steady w σ σ' → multi_file w σ' = multi_file w σ.
Proof. intros (Hh & _). unfold multi_file. by rewrite Hh. Qed.




(** *** Distinct paths *)




End facts.

(** ** Facts about the heap *)

Section heap_facts.
Implicit Types (h : heap_t) (d : dict) (l a : loc).

Lemma elem_of_refs_of d l : l ∈ refs_of d ↔ ∃ k, d !! k = Some (VRef l).
Proof.
  unfold refs_of. rewrite list_elem_of_omap. split.
  - intros ([k v] & Hkv%elem_of_map_to_list & Hv). simpl in Hv.
    destruct v; simplify_eq. by exists k.
  - intros [k Hk]. exists (k, VRef l). by rewrite elem_of_map_to_list.
Qed.

Lemma elem_of_addresses h l :
  l ∈ addresses h ↔
  is_Some (h !! l) ∨ ∃ a d k, h !! a = Some d ∧ d !! k = Some (VRef l).
Proof.
  unfold addresses. rewrite list_elem_of_bind. split.
  - intros ([a d] & Hl & Had%elem_of_map_to_list). simpl in Hl.
    apply elem_of_cons in Hl as [->|Hl]; [by left; eexists|].
    apply elem_of_refs_of in Hl as [k Hk]. right. by exists a, d, k.
  - intros [[d Hd]|(a & d & k & Ha & Hk)].
    + exists (l, d). rewrite elem_of_map_to_list. split; [|done]. simpl. left.
    + exists (a, d). rewrite elem_of_map_to_list. split; [|done]. simpl. right.
      apply elem_of_refs_of. by exists k.
Qed.

Lemma next_loc_key h l : is_Some (h !! l) → l < next_loc h.
Proof.
  intros Hl. unfold next_loc. apply Nat.lt_succ_r, max_list_elem_of_le.
  apply elem_of_addresses. by left.
Qed.

Lemma next_loc_ref h a d k l :
  h !! a = Some d → d !! k = Some (VRef l) → l < next_loc h.
Proof.
  intros Ha Hk. unfold next_loc. apply Nat.lt_succ_r, max_list_elem_of_le.
  apply elem_of_addresses. right. by exists a, d, k.
Qed.

Lemma next_loc_fresh h : h !! next_loc h = None.
Proof.
  destruct (h !! next_loc h) eqn:Hl; [|done].
  assert (next_loc h < next_loc h) by (apply next_loc_key; by eexists). lia.
Qed.

Lemma max_list_le_iff (ns : list nat) (m : nat) :
  (max_list ns ≤ m)%nat ↔ ∀ n, n ∈ ns → (n ≤ m)%nat.
Proof.
  induction ns as [|x ns IH]; simpl.
  - split; [by intros _ n ?%elem_of_nil|lia].
  - split.
    + intros Hm n [->|Hn]%elem_of_cons; [lia|]. apply IH; [lia|done].
    + intros Hall. apply Nat.max_lub; [apply Hall; left|].
      apply IH. intros n Hn. apply Hall. by right.
Qed.

(** A heap that keeps everything below the next address of another has a
    next address at least as large. *)
Lemma next_loc_mono h0 h :
  (∀ l, l < next_loc h0 → h !! l = h0 !! l) → (next_loc h0 ≤ next_loc h)%nat.
Proof.
  intros Hframe. unfold next_loc at 1. apply le_n_S, max_list_le_iff.
  intros l [Hl|(a & d & k & Ha & Hk)]%elem_of_addresses.
  - apply Nat.lt_succ_r. change (l < next_loc h). apply next_loc_key.
    rewrite Hframe; [done|]. by apply next_loc_key.
  - apply Nat.lt_succ_r. change (l < next_loc h).
    apply (next_loc_ref h a d k); [|done].
    rewrite Hframe; [done|]. apply next_loc_key. by eexists.
Qed.

Lemma copy_objects_lookup_shift n (r : gset loc) h l :
  copy_objects n r h !! shift_loc n l =
  if decide (l ∈ r) then fmap (rename_val (shift_loc n)) <$> h !! l else None.
Proof.
  unfold copy_objects. rewrite (lookup_kmap (shift_loc n)), lookup_fmap, map_lookup_filter.
  destruct (h !! l) as [d|]; simpl; [|by destruct (decide _)].
  destruct (decide (l ∈ r)) as [Hin|Hnin].
  - by rewrite option_guard_True.
  - by rewrite option_guard_False.
Qed.

Lemma copy_objects_lookup_Some n (r : gset loc) h a d :
  copy_objects n r h !! a = Some d →
  ∃ l d0, a = shift_loc n l ∧ l ∈ r ∧ h !! l = Some d0 ∧
    d = rename_val (shift_loc n) <$> d0.
Proof.
  unfold copy_objects. intros Hl.
  apply (lookup_kmap_Some (shift_loc n)) in Hl as (l & -> & Hl).
  rewrite lookup_fmap in Hl. apply fmap_Some in Hl as (d0 & Hl & ->).
  apply map_lookup_filter_Some in Hl as [Hl Hr]. by exists l, d0.
Qed.

Lemma rename_val_ref (ρ : loc → loc) (d : dict) k l :
  (rename_val ρ <$> d) !! k = Some (VRef l) →
  ∃ l0, d !! k = Some (VRef l0) ∧ l = ρ l0.
Proof.
  rewrite lookup_fmap. intros (v & Hk & Hv)%fmap_Some.
  destruct v; simplify_eq/=. by eexists.
Qed.

Lemma reachable_root h (s : gset loc) l : l ∈ s → l ∈ reachable h s.
Proof.
  intros Hl. unfold reachable. induction (size h) as [|n IH]; simpl; [done|].
  unfold reach_step at 1. set_solver.
Qed.

Lemma reachable_child h (s : gset loc) l d k l' :
  l ∈ s → h !! l = Some d → d !! k = Some (VRef l') → l' ∈ reachable h s.
Proof.
  intros Hl Hd Hk. unfold reachable.
  assert (size h ≠ 0) as Hsize.
  { intros Hz%map_size_empty_inv. by rewrite Hz in Hd. }
  destruct (size h) as [|n]; [done|]. clear Hsize.
  assert (l' ∈ reach_step h s) as Hstep.
  { unfold reach_step. apply elem_of_union_r, elem_of_set_bind.
    exists l. split; [done|]. apply elem_of_list_to_set, elem_of_refs_of.
    exists k. by rewrite lookup_total_alt, Hd. }
  rewrite Nat.iter_succ_r.
  generalize dependent (reach_step h s). intros s1 Hs1.
  induction n as [|n IH]; simpl; [done|]. unfold reach_step at 1. set_solver.
Qed.

Lemma next_loc_le_absent h a : (next_loc h ≤ a)%nat → h !! a = None.
Proof.
  intros Hle. destruct (h !! a) eqn:Ha; [|done].
  assert (a < next_loc h) by (apply next_loc_key; by eexists). lia.
Qed.

(** A deep copy leaves every existing object as it is. *)
Lemma copy_heap_frame v h a : a < next_loc h → copy_heap v h !! a = h !! a.
Proof.
  intros Ha. destruct v as [| | | |l]; try done. simpl.
  apply lookup_union_l.
  destruct (copy_objects _ _ h !! a) as [d|] eqn:Hc; [|done].
  apply copy_objects_lookup_Some in Hc as (l0 & d0 & -> & _).
  unfold shift_loc, next_loc in Ha. lia.
Qed.

(** The objects it adds refer to copies only. *)
Lemma copy_heap_new v h a d k l :
  copy_heap v h !! a = Some d → (next_loc h ≤ a)%nat →
  d !! k = Some (VRef l) → (next_loc h ≤ l)%nat.
Proof.
  intros Ha Hle Hk. destruct v as [| | | |l0]; simpl in Ha;
    try (by rewrite next_loc_le_absent in Ha).
  apply lookup_union_Some_raw in Ha as [Ha|[_ Ha]];
    [by rewrite next_loc_le_absent in Ha|].
  apply copy_objects_lookup_Some in Ha as (l1 & d1 & _ & _ & _ & ->).
  apply rename_val_ref in Hk as (l2 & _ & ->). unfold shift_loc, next_loc. lia.
Qed.

(** The copy of an object that the argument reaches is that object, with
    the references in it redirected. *)
Lemma copy_heap_lookup l h l0 :
  l0 ∈ reachable h {[l]} →
  copy_heap (VRef l) h !!! shift_loc (next_loc h) l0 =
  rename_val (shift_loc (next_loc h)) <$> (h !!! l0).
Proof.
  intros Hr. rewrite !lookup_total_alt. unfold copy_heap.
  rewrite lookup_union_r by (apply next_loc_le_absent; unfold shift_loc, next_loc; lia).
  rewrite copy_objects_lookup_shift, decide_True by done.
  destruct (h !! l0); simpl; [done|]. by rewrite fmap_empty.
Qed.

Lemma fresh_region_insert n h a d :
  fresh_region n h →
  (∀ k l, d !! k = Some (VRef l) → (n ≤ l)%nat) →
  fresh_region n (<[a := d]> h).
Proof.
  intros Hh Hd a' d' k l Ha' Hle Hk.
  destruct (decide (a = a')) as [->|Hne].
  - rewrite lookup_insert_eq in Ha'. simplify_eq. by eapply Hd.
  - rewrite lookup_insert_ne in Ha' by done. by eapply Hh.
Qed.

Lemma fresh_region_copy n v h :
  (n ≤ next_loc h)%nat → fresh_region n h → fresh_region n (copy_heap v h).
Proof.
  intros Hn Hh a d k l Ha Hle Hk.
  destruct (decide (a < next_loc h)) as [Hlt|Hge].
  - rewrite copy_heap_frame in Ha by done. by eapply Hh.
  - assert (next_loc h ≤ l)%nat; [|lia].
    eapply copy_heap_new; [done|lia|done].
Qed.

Lemma fresh_region_lookup n h a k l :
  fresh_region n h → (n ≤ a)%nat → (h !!! a : dict) !! k = Some (VRef l) → (n ≤ l)%nat.
Proof.
  intros Hh Hle. rewrite lookup_total_alt.
  destruct (h !! a) as [d|] eqn:Ha; simpl; [|done]. by eapply Hh.
Qed.

End heap_facts.

(** ** Construction *)

Section construction.
Context {FS Handle : Type}.
Context `{!FileSystem FS Handle, !KedroCore}.
Implicit Types (σ : World FS) (w : Writer).

Lemma bind_returns {A B} (m : M FS A) (f : A → M FS B) σ b σ' :
  (m ≫= f) σ = (Returns b, σ') →
  ∃ a σ1, m σ = (Returns a, σ1) ∧ f a σ1 = (Returns b, σ').
Proof.
  unfold mbind, M_bind. destruct (m σ) as [[a|e] σ1]; [|done]. by exists a, σ1.
Qed.

(** [copy.deepcopy(v) or {}]: the world differs in its heap only; what was
    there is as it was; the result, when it is a dict, is a new object with
    the entries of the caller's mapping, references redirected to the
    copies, and the copies of the objects it refers to are faithful too. *)
Lemma prep_returns (v c v' : val) σ σ1 σ2 :
  deepcopy v σ = (Returns c, σ1) →
  or_new_dict c σ1 = (Returns v', σ2) →
  let n := next_loc (heap σ) in
  σ2 = set_heap (heap σ2) σ ∧
  (∀ a, a < n → heap σ2 !! a = heap σ !! a) ∧
  (∀ m, (m ≤ n)%nat → fresh_region m (heap σ) → fresh_region m (heap σ2)) ∧
  (v' = rename_val (shift_loc n) v ∨ caller_mapping (heap σ) v = ∅) ∧
  (∀ l', v' = VRef l' →
     (n ≤ l')%nat ∧ is_Some (heap σ2 !! l') ∧
     heap σ2 !!! l' = rename_val (shift_loc n) <$> caller_mapping (heap σ) v ∧
     (∀ k lo, caller_mapping (heap σ) v !! k = Some (VRef lo) →
        heap σ2 !!! shift_loc n lo = rename_val (shift_loc n) <$> (heap σ !!! lo))).
Proof.
  unfold deepcopy, or_new_dict, new_dict. unfold_M. intros [= <- <-]. cbn [heap set_heap].
  set (n := next_loc (heap σ)). set (h1 := copy_heap v (heap σ)).
  assert (∀ a, a < n → h1 !! a = heap σ !! a) as Hframe1
    by (intros a Ha; by apply copy_heap_frame).
  assert (n ≤ next_loc h1)%nat as Hn1 by (by apply next_loc_mono).
  destruct (truthy h1 (rename_val (shift_loc n) v)) eqn:Htruthy.
  - intros [= <- <-]. cbn [heap set_heap]. split_and!; [by destruct σ|done| |by left|].
    { intros m Hm Hreg. by apply fresh_region_copy. }
    intros l' Hv'. destruct v as [| | | |l]; simplify_eq/=.
    assert (h1 !!! shift_loc n l = rename_val (shift_loc n) <$> (heap σ !!! l)) as Hroot.
    { apply copy_heap_lookup, reachable_root. set_solver. }
    split_and!.
    + unfold shift_loc. lia.
    + rewrite negb_true_iff in Htruthy. apply bool_decide_eq_false in Htruthy.
      destruct (h1 !! shift_loc n l) as [d|] eqn:Hd; [by eexists|].
      exfalso. apply Htruthy. by rewrite lookup_total_alt, Hd.
    + done.
    + intros k lo Hk. apply copy_heap_lookup.
      destruct (heap σ !! l) as [d|] eqn:Hd.
      * apply (reachable_child _ _ l d k); [set_solver|done|].
        by rewrite lookup_total_alt, Hd in Hk.
      * by rewrite lookup_total_alt, Hd in Hk.
  - intros [= <- <-]. cbn [heap set_heap].
    assert (caller_mapping (heap σ) v = ∅) as Hempty.
    { destruct v as [| | | |l]; try done. simpl in *.
      rewrite negb_false_iff in Htruthy. apply bool_decide_eq_true in Htruthy.
      assert (h1 !!! shift_loc n l = rename_val (shift_loc n) <$> (heap σ !!! l)) as Hroot.
      { apply copy_heap_lookup, reachable_root. set_solver. }
      rewrite Htruthy in Hroot. symmetry in Hroot. by apply fmap_empty_inv in Hroot. }
    split_and!; [by destruct σ| | |by right|].
    { intros a Ha. rewrite lookup_insert_ne by lia. by apply Hframe1. }
    { intros m Hm Hreg. apply fresh_region_insert; [by apply fresh_region_copy|done]. }
    intros l' [= <-]. split_and!; [done|by rewrite lookup_insert_eq| |].
    + by rewrite lookup_total_insert_eq, Hempty, fmap_empty.
    + intros k lo. by rewrite Hempty.
Qed.

Lemma new_dict_inv (d : dict) σ v σ1 :
  new_dict d σ = (Returns v, σ1) →
  v = VRef (next_loc (heap σ)) ∧
  σ1 = set_heap (<[next_loc (heap σ) := d]> (heap σ)) σ.
Proof. unfold new_dict. by intros [= <- <-]. Qed.

Lemma as_dict_inv v σ l σ1 :
  as_dict v σ = (Returns l, σ1) → v = VRef l ∧ σ1 = σ.
Proof. destruct v; unfold as_dict; unfold_M; by intros [= <- <-]. Qed.

Lemma kwargs_of_inv v σ (d : dict) σ1 :
  kwargs_of v σ = (Returns d, σ1) → ∃ l, v = VRef l ∧ d = heap σ !!! l ∧ σ1 = σ.
Proof. destruct v; unfold kwargs_of; unfold_M; intros [= <- <-]. by eexists. Qed.

Lemma dict_pop_inv l key dflt σ v σ1 :
  dict_pop l key dflt σ = (Returns v, σ1) →
  ((heap σ !!! l : dict) !! key = Some v ∧
   σ1 = set_heap (<[l := delete key (heap σ !!! l)]> (heap σ)) σ) ∨
  ((heap σ !!! l : dict) !! key = None ∧ v = dflt ∧ σ1 = σ).
Proof.
  unfold dict_pop. unfold_M. destruct ((heap σ !!! l : dict) !! key) as [v0|].
  - intros [= <- <-]. by left.
  - intros [= <- <-]. by right.
Qed.

Lemma dict_setdefault_inv l key value σ v σ1 :
  dict_setdefault l key value σ = (Returns v, σ1) →
  σ1 = set_heap (heap σ1) σ ∧
  heap σ1 !!! l = (heap σ !!! l : dict) ∪ {[ key := value ]} ∧
  (∀ a, a ≠ l → heap σ1 !! a = heap σ !! a) ∧
  is_Some (heap σ1 !! l).
Proof.
  unfold dict_setdefault. unfold_M.
  destruct ((heap σ !!! l : dict) !! key) as [v0|] eqn:Hk.
  - intros [= <- <-]. split_and!; [by destruct σ| |done|].
    + apply map_eq. intros k. rewrite lookup_union.
      destruct (decide (k = key)) as [->|Hne].
      * by rewrite Hk, lookup_singleton_eq.
      * rewrite lookup_singleton_ne by done. by destruct (_ !! k).
    + rewrite lookup_total_alt in Hk. by destruct (heap σ !! l).
  - intros [= <- <-]. cbn [heap set_heap].
    split_and!; [done| | |].
    + by rewrite lookup_total_insert_eq, insert_union_singleton_r.
    + intros a Ha. by rewrite lookup_insert_ne.
    + by rewrite lookup_insert_eq.
Qed.

Lemma merge_kwargs_inv (a b kwargs : dict) σ σ1 :
  merge_kwargs a b σ = (Returns kwargs, σ1) → kwargs = a ∪ b ∧ σ1 = σ.
Proof.
  unfold merge_kwargs. destruct (bool_decide _); unfold_M; [|done].
  by intros [= <- <-].
Qed.

Lemma new_filesystem_inv protocol (kwargs : dict) σ σ1 :
  new_filesystem protocol kwargs σ = (Returns (), σ1) →
  heap σ1 = heap σ ∧ log σ1 = log σ ++ [EvFilesystem protocol kwargs].
Proof.
  unfold new_filesystem. unfold_M. destruct (filesystem protocol kwargs); [|done].
  by intros [= <-].
Qed.

Lemma dict_update_inv l other σ σ1 :
  dict_update l other σ = (Returns (), σ1) →
  ∃ l', other = VRef l' ∧
    σ1 = set_heap (<[l := (heap σ !!! l' : dict) ∪ (heap σ !!! l)]> (heap σ)) σ.
Proof.
  destruct other; unfold dict_update; unfold_M; try done.
  intros [= <-]. by eexists.
Qed.

Lemma fresh_region_next h : fresh_region (next_loc h) h.
Proof. intros a d k l Ha Hle. by rewrite next_loc_le_absent in Ha. Qed.

Lemma caller_mapping_frame (h0 h : heap_t) v :
  valid_arg h0 v → (∀ a, a < next_loc h0 → h !! a = h0 !! a) →
  caller_mapping h v = caller_mapping h0 v.
Proof.
  intros Hv Hframe. destruct v as [| | | |l]; try done. simpl in *.
  rewrite !lookup_total_alt, Hframe; [done|]. by apply next_loc_key.
Qed.

(** What a construction that returns leaves: the caller's objects as they
    were; the writer's [_fs_args] and [_fs_open_args_save] among new objects
    that refer to new objects only, none of them the [_save_args] object;
    the contents of the three mappings; and the one call made, of the
    filesystem constructor, with its keyword arguments. *)
Lemma init_returns filepath fs_args credentials save_args layer version σ w σ' :
  valid_arg (heap σ) fs_args →
  valid_arg (heap σ) save_args →
  not_self_nested (heap σ) fs_args →
  __init__ filepath fs_args credentials save_args layer version σ = (Returns w, σ') →
  ∃ n2 kwargs,
    (next_loc (heap σ) ≤ n2)%nat ∧
    (∀ a, a < next_loc (heap σ) → heap σ' !! a = heap σ !! a) ∧
    ((next_loc (heap σ) ≤ _fs_args w)%nat ∧ _fs_args w < _save_args w) ∧
    ((next_loc (heap σ) ≤ _fs_open_args_save w)%nat ∧
     _fs_open_args_save w < _save_args w) ∧
    (∀ a d k l, heap σ' !! a = Some d →
       (next_loc (heap σ) ≤ a)%nat → a < _save_args w →
       d !! k = Some (VRef l) →
       (next_loc (heap σ) ≤ l)%nat ∧ l < _save_args w) ∧
    heap σ' !!! _fs_args w =
      delete "open_args_save"
        (rename_val (shift_loc n2) <$> caller_mapping (heap σ) fs_args) ∧
    heap σ' !!! _fs_open_args_save w =
      (rename_val (shift_loc n2) <$> caller_open_args (heap σ) fs_args)
      ∪ {[ "mode" := VStr "wb" ]} ∧
    heap σ' !!! _save_args w = caller_mapping (heap σ) save_args ∪ DEFAULT_SAVE_ARGS ∧
    log σ' = log σ ++ [EvFilesystem (_protocol w) kwargs] ∧
    kwargs =
      (rename_val (shift_loc (next_loc (heap σ))) <$> caller_mapping (heap σ) credentials)
      ∪ delete "open_args_save"
          (rename_val (shift_loc n2) <$> caller_mapping (heap σ) fs_args) ∧
    (∀ k l, kwargs !! k = Some (VRef l) →
       (next_loc (heap σ) ≤ l)%nat ∧ l < _save_args w).
Proof.
  intros Hvf Hvs Hnest Hinit. unfold __init__ in Hinit.
  apply bind_returns in Hinit as (c & σ1 & Hc & Hinit).
  apply bind_returns in Hinit as (cred_v & σ2 & Hcred & Hinit).
  apply bind_returns in Hinit as (f & σ3 & Hf & Hinit).
  apply bind_returns in Hinit as (fs_v & σ4 & Hfs & Hinit).
  apply bind_returns in Hinit as (dflt & σ5 & Hdflt & Hinit).
  apply bind_returns in Hinit as (fa & σ5' & Hfa & Hinit).
  apply bind_returns in Hinit as (popped & σ6 & Hpop & Hinit).
  apply bind_returns in Hinit as (oa & σ6' & Hoa & Hinit).
  apply bind_returns in Hinit as (mode & σ7 & Hmode & Hinit).
  destruct (get_protocol_and_path filepath version) as [protocol path].
  apply bind_returns in Hinit as (cred_kwargs & σ7a & Hck & Hinit).
  apply bind_returns in Hinit as (fs_kwargs & σ7b & Hfk & Hinit).
  apply bind_returns in Hinit as (kwargs & σ7c & Hkw & Hinit).
  apply bind_returns in Hinit as ([] & σ7d & Hnew & Hinit).
  apply bind_returns in Hinit as ([] & σ7e & Hsuper & Hinit).
  apply bind_returns in Hinit as (sa & σ8 & Hsa & Hinit).
  apply bind_returns in Hinit as (a8 & σ8' & Ha8 & Hinit).
  apply bind_returns in Hinit as ([] & σ9 & Hupd & Hinit).
  injection Hinit as <- <-. cbn [_fs_args _fs_open_args_save _save_args _protocol].
  (* the two deep copies *)
  set (n0 := next_loc (heap σ)).
  destruct (prep_returns _ _ _ _ _ _ Hc Hcred) as (E1 & F1 & R1 & _ & C1).
  fold n0 in F1, R1, C1.
  pose proof (R1 n0 (reflexivity _) (fresh_region_next _)) as Reg2. clear R1.
  apply (f_equal log) in E1. cbn [log set_heap] in E1.
  set (n2 := next_loc (heap σ2)) in *.
  assert (n0 ≤ n2)%nat as Hn02 by (by apply next_loc_mono).
  destruct (prep_returns _ _ _ _ _ _ Hf Hfs) as (E2 & F2 & R2 & O2 & C2).
  fold n2 in F2, R2, O2, C2.
  pose proof (R2 n0 Hn02 Reg2) as Reg4. clear R2.
  apply (f_equal log) in E2. cbn [log set_heap] in E2.
  rewrite (caller_mapping_frame (heap σ) (heap σ2) fs_args Hvf F1) in O2, C2.
  clear Hc Hcred Hf Hfs c f σ1 σ3.
  set (Df := caller_mapping (heap σ) fs_args) in *.
  set (ρ := rename_val (shift_loc n2)) in *.
  (* the default dict, and the pop *)
  apply new_dict_inv in Hdflt as [-> ->].
  apply as_dict_inv in Hfa as [-> ->].
  destruct (C2 fa eq_refl) as (Hfa_ge & Hfa_in & Hfa_eq & Hchild). clear C2.
  set (a5 := next_loc (heap σ4)) in *.
  assert (fa < a5) as Hfa5 by (by apply next_loc_key).
  assert (n2 ≤ a5)%nat as Hn25 by (by apply next_loc_mono).
  assert ((<[a5 := ∅]> (heap σ4) : heap_t) !!! fa = ρ <$> Df) as Hfa5_eq.
  { rewrite lookup_total_insert_ne by lia. done. }
  apply as_dict_inv in Hoa as [-> ->].
  assert (oa ≠ fa ∧ (n2 ≤ oa)%nat ∧
          heap σ6 !!! oa = ρ <$> caller_open_args (heap σ) fs_args ∧
          heap σ6 !!! fa = delete "open_args_save" (ρ <$> Df) ∧
          (∀ a, a < n2 → heap σ6 !! a = heap σ2 !! a) ∧
          fresh_region n0 (heap σ6) ∧
          is_Some (heap σ6 !! fa) ∧
          log σ6 = log σ) as (Hne & Hoa_ge & H6oa & H6fa & F6 & Reg6 & H6in & L6).
  { apply dict_pop_inv in Hpop as [[Hkey ->]|(Hkey & Hd & ->)];
      cbn [heap set_heap log] in *; rewrite Hfa5_eq in Hkey.
    - apply rename_val_ref in Hkey as (lo & Hlo & ->).
      destruct O2 as [O2|O2]; [|by rewrite O2 in Hlo].
      destruct fs_args as [| | | |lf]; try done. injection O2 as ->.
      assert (lo ≠ lf) as Hlolf.
      { intros ->. apply Hnest. done. }
      destruct Hvf as [df Hdf].
      assert (Df = df) as HDf by (unfold Df; simpl; by rewrite lookup_total_alt, Hdf).
      assert (lo < n0) as Hlo0.
      { apply (next_loc_ref (heap σ) lf df "open_args_save"); [done|by rewrite <-HDf]. }
      assert (shift_loc n2 lo < a5) as Hoa5.
      { destruct Hfa_in as [dfa Hdfa].
        apply (next_loc_ref (heap σ4) (shift_loc n2 lf) dfa "open_args_save"); [done|].
        rewrite lookup_total_alt, Hdfa in Hfa_eq. simpl in Hfa_eq. rewrite Hfa_eq.
        unfold ρ. rewrite lookup_fmap, Hlo. done. }
      assert (shift_loc n2 lo ≠ shift_loc n2 lf) as Hne by (unfold shift_loc; lia).
      split_and!.
      + done.
      + unfold shift_loc. lia.
      + rewrite lookup_total_insert_ne by done.
        rewrite lookup_total_insert_ne by lia.
        rewrite (Hchild _ _ Hlo). unfold caller_open_args. fold Df. rewrite Hlo. simpl.
        by rewrite !lookup_total_alt, F1.
      + by rewrite lookup_total_insert_eq, Hfa5_eq.
      + intros a Ha. rewrite !lookup_insert_ne by lia. by apply F2.
      + apply fresh_region_insert; [apply fresh_region_insert; [done|done]|].
        intros k l Hk. rewrite lookup_delete_Some in Hk. destruct Hk as [_ Hk].
        apply (fresh_region_lookup n0 (heap σ4) (shift_loc n2 lf) k); [done|lia|].
        by rewrite lookup_total_insert_ne in Hk by lia.
      + by rewrite lookup_insert_eq.
      + by rewrite E2.
    - injection Hd as ->.
      rewrite lookup_fmap in Hkey. apply fmap_None in Hkey.
      split_and!.
      + lia.
      + done.
      + rewrite lookup_total_insert_eq. unfold caller_open_args. fold Df.
        rewrite Hkey. simpl. by rewrite fmap_empty.
      + rewrite Hfa5_eq. rewrite delete_id; [done|]. by rewrite lookup_fmap, Hkey.
      + intros a Ha. rewrite lookup_insert_ne by lia. by apply F2.
      + apply fresh_region_insert; done.
      + rewrite lookup_insert_ne by lia. done.
      + by rewrite E2. }
  clear Hpop Hfa5_eq Hchild Hfa_eq Hfa_in O2.
  (* the write mode *)
  apply dict_setdefault_inv in Hmode as (E7 & H7oa & F7 & H7in).
  apply (f_equal log) in E7. cbn [log set_heap] in E7.
  assert (fresh_region n0 (heap σ7)) as Reg7.
  { intros a d k l Ha Hle Hk. destruct (decide (a = oa)) as [->|Hao].
    - rewrite lookup_total_alt, Ha in H7oa. simpl in H7oa. subst d.
      apply lookup_union_Some_raw in Hk as [Hk|[_ Hk]].
      + by apply (fresh_region_lookup n0 (heap σ6) oa k).
      + apply lookup_singleton_Some in Hk as [_ Hk]. done.
    - rewrite F7 in Ha by done. by eapply Reg6. }
  (* the keyword arguments of the filesystem constructor *)
  apply kwargs_of_inv in Hck as (lc & -> & -> & ->).
  apply kwargs_of_inv in Hfk as (? & [= <-] & -> & ->).
  apply merge_kwargs_inv in Hkw as [-> ->].
  apply new_filesystem_inv in Hnew as [H7d L7d].
  unfold super_init in Hsuper. unfold_M. injection Hsuper as <-.
  destruct (C1 lc eq_refl) as (Hlc_ge & Hlc_in & Hlc_eq & _). clear C1.
  assert (lc < n2) as Hlc2 by (by apply next_loc_key).
  assert (heap σ7 !!! lc =
          rename_val (shift_loc n0) <$> caller_mapping (heap σ) credentials) as H7lc.
  { rewrite lookup_total_alt, F7, F6, <-lookup_total_alt by lia. done. }
  assert (heap σ7 !!! fa = delete "open_args_save" (ρ <$> Df)) as H7fa.
  { rewrite lookup_total_alt, F7, <-lookup_total_alt by done. done. }
  rewrite H7lc, H7fa in *.
  (* the encoder arguments *)
  apply new_dict_inv in Hsa as [-> ->].
  apply as_dict_inv in Ha8 as [[= <-] ->].
  cbn [heap set_heap set_version_cache log] in *. rewrite H7d in *.
  set (a8 := next_loc (heap σ7)) in *.
  assert (∀ a, is_Some (heap σ7 !! a) → a < a8) as Hkey8
    by (intros a Ha; by apply next_loc_key).
  assert (heap σ9 !!! a8 = caller_mapping (heap σ) save_args ∪ DEFAULT_SAVE_ARGS ∧
          (∀ a, a ≠ a8 → heap σ9 !! a = heap σ7 !! a) ∧
          log σ9 = log σ ++ [EvFilesystem protocol
            ((rename_val (shift_loc n0) <$> caller_mapping (heap σ) credentials)
             ∪ delete "open_args_save" (ρ <$> Df))])
    as (H9sa & F9 & L9).
  { assert (∀ a, a < n0 → heap σ7 !! a = heap σ !! a) as F07.
    { intros a Ha. rewrite F7, F6, F1 by lia. done. }
    assert (n0 ≤ a8)%nat as Hn08 by (by apply next_loc_mono).
    destruct save_args as [| | | |ls].
    2-4: by apply dict_update_inv in Hupd as (? & ? & _).
    - unfold_M. injection Hupd as <-. cbn [heap set_heap log set_version_cache].
      split_and!.
      + rewrite lookup_total_insert_eq. unfold DEFAULT_SAVE_ARGS. simpl.
        by rewrite map_union_empty.
      + intros a Ha. by rewrite lookup_insert_ne.
      + by rewrite L7d, E7, L6.
    - apply dict_update_inv in Hupd as (? & [= <-] & ->).
      cbn [heap set_heap log set_version_cache].
      destruct Hvs as [ds Hds].
      assert (ls < n0) as Hls by (apply next_loc_key; by eexists).
      split_and!.
      + rewrite !lookup_total_insert_eq. rewrite lookup_total_insert_ne by lia.
        simpl. rewrite !lookup_total_alt, F07 by done. done.
      + intros a Ha. by rewrite !lookup_insert_ne.
      + by rewrite L7d, E7, L6. }
  exists n2, ((rename_val (shift_loc n0) <$> caller_mapping (heap σ) credentials)
             ∪ delete "open_args_save" (ρ <$> Df)).
  assert (fa < a8) as Hfa8 by (by apply Hkey8; rewrite F7).
  assert (oa < a8) as Hoa8 by (by apply Hkey8).
  assert (∀ a d k l, heap σ7 !! a = Some d → (n0 ≤ a)%nat →
            d !! k = Some (VRef l) → (n0 ≤ l)%nat ∧ l < a8) as Hreg.
  { intros a d k l Ha Hle Hk. split; [by eapply Reg7|].
    by apply (next_loc_ref (heap σ7) a d k). }
  split_and!.
  - done.
  - intros a Ha. rewrite F9, F7, F6, F1 by lia. done.
  - lia.
  - done.
  - lia.
  - done.
  - intros a d k l Ha Hle Hlt Hk. rewrite F9 in Ha by lia. by eapply Hreg.
  - rewrite lookup_total_alt, F9, <-lookup_total_alt by lia. done.
  - rewrite lookup_total_alt, F9, <-lookup_total_alt by lia.
    by rewrite H7oa, H6oa.
  - done.
  - done.
  - done.
  - intros k l Hk. apply lookup_union_Some_raw in Hk as [Hk|[_ Hk]].
    + destruct Hlc_in as [dc Hdc].
      assert (heap σ7 !! lc = Some dc) as Hdc7 by (rewrite F7, F6 by lia; done).
      apply (Hreg lc dc k); [done|lia|].
      rewrite lookup_total_alt, Hdc7 in H7lc. simpl in H7lc. by rewrite H7lc.
    + destruct (heap σ7 !! fa) as [dfa|] eqn:Hdfa.
      * apply (Hreg fa dfa k); [done|lia|].
        rewrite lookup_total_alt, Hdfa in H7fa. simpl in H7fa. by rewrite H7fa.
      * rewrite F7 in Hdfa by done. rewrite Hdfa in H6in. by destruct H6in.
Qed.

End construction.

(** * The claims *)

Section claims.
Context {FS Handle Plot : Type}.
Context `{!FileSystem FS Handle, !Encoder Plot, !KedroCore}.
Implicit Types (σ : World FS) (w : Writer).


(** C6. Without a version descriptor, path resolution returns the declared
    path unchanged and touches nothing; and every file a save opens is at
    the declared path or directly under it. *)
Theorem plain_mode_resolves_declared_path w :
  _version w = None →
  (∀ σ, _get_save_path w σ = (Returns (_filepath w), σ)) ∧
  (∀ (data : Payload Plot) σ,
     Forall (under (declared_path w))
       (open_calls (events_since σ (_save w data σ).2))).
Proof.
  intros Hv. split.
  - intros σ. rewrite _get_save_path_unfold. by rewrite Hv.
  - intros data σ.
    destruct (_save_frame w data σ) as (_ & _ & _ & evs & Hl & _ & Hu & _).
    rewrite (events_since_app _ _ _ Hl).
    revert Hu. unfold save_path_in, declared_path. by rewrite Hv.
Qed.




(** C3 (as amended). The write path is resolved once per element, not once
    per save; across one save every resolution yields the same path: every
    file the save opens, however it ends, is at or under one base; a save
    version is generated at most once; a later resolution still yields the
    path; with a version descriptor a save that returns has asked the
    filesystem about that one path once per element; and a resolution of the
    save version, repeated while the cache stands, returns the same
    identifier and changes nothing. *)
Theorem one_version_per_save w (data : Payload Plot) σ :
  Forall (under (get_filepath_str (save_path_in w σ) (_protocol w)))
    (open_calls (events_since σ (_save w data σ).2)) ∧
  generated_at_most_once σ (_save w data σ).2 ∧
  save_path_in w (_save w data σ).2 = save_path_in w σ ∧
  (∀ v σ', _version w = Some v → _save w data σ = (Returns (), σ') →
     exists_calls (events_since σ σ') =
       replicate (length (elements_of data)) (str (save_path_in w σ))) ∧
  (∀ r σ1 σ2, resolve_save_version w σ = (r, σ1) →
     version_cache σ2 = version_cache σ1 →
     resolve_save_version w σ2 = (r, σ2)).
Proof.
  destruct (_save_frame w data σ) as (_ & Hp & Hg & evs & Hl & _ & Hu & _).
  split_and!; [|done|done| |].
  - by rewrite (events_since_app _ _ _ Hl).
  - intros v σ' Hv Hs. apply _save_returns_trace in Hs as (bs & Hbs & ->).
    rewrite exists_calls_app; simpl. rewrite app_nil_r.
    apply Forall2_length in Hbs. revert bs Hbs.
    induction (elements_of data) as [|x xs IH]; intros [|b bs] Hlen; try done.
    simpl in *. rewrite exists_calls_app, exists_calls_element_events, Hv.
    simpl. f_equal. apply IH. lia.
  - intros r σ1 σ2. unfold resolve_save_version, _fetch_latest_save_version.
    unfold_M.
    destruct (_version w) as [v|]; [|by intros [= <- <-]].
    destruct (save v) as [s|]; [by intros [= <- <-]|].
    destruct (version_cache σ) as [c|] eqn:Hc.
    + intros [= <- <-]. rewrite Hc. by intros ->.
    + intros [= <- <-]; simpl. by intros ->.
Qed.


(** C8. For every construction that returns, of arguments that exist and
    with [fs_args] not nested in itself: the writer's open arguments are the
    caller's nested [open_args_save] mapping (deep-copied: an atom is the
    caller's, a nested object is redirected to its copy) with the mode
    ["wb"] added if the caller gave no mode, and nothing else; and the
    writer's encoder arguments are the (empty) defaults overlaid by the
    caller's, that is, the caller's. *)
Theorem construction_merges_arguments
    filepath fs_args credentials save_args layer version σ w σ' :
  valid_arg (heap σ) fs_args →
  valid_arg (heap σ) save_args →
  not_self_nested (heap σ) fs_args →
  __init__ filepath fs_args credentials save_args layer version σ = (Returns w, σ') →
  (∃ ρ,
     (heap σ' !!! _fs_open_args_save w : dict) =
       (rename_val ρ <$> caller_open_args (heap σ) fs_args) ∪ {[ "mode" := VStr "wb" ]}) ∧
  (caller_open_args (heap σ) fs_args !! "mode" = None →
     (heap σ' !!! _fs_open_args_save w : dict) !! "mode" = Some (VStr "wb")) ∧
  (∀ k v, caller_open_args (heap σ) fs_args !! k = Some v →
     (∀ l, v ≠ VRef l) →
     (heap σ' !!! _fs_open_args_save w : dict) !! k = Some v) ∧
  (∀ k, k ≠ "mode" → caller_open_args (heap σ) fs_args !! k = None →
     (heap σ' !!! _fs_open_args_save w : dict) !! k = None) ∧
  (heap σ' !!! _save_args w : dict) = caller_mapping (heap σ) save_args ∪ DEFAULT_SAVE_ARGS ∧
  (heap σ' !!! _save_args w : dict) = caller_mapping (heap σ) save_args.
Proof.
  intros Hvf Hvs Hnest Hinit.
  destruct (init_returns _ _ _ _ _ _ _ _ _ Hvf Hvs Hnest Hinit)
    as (n2 & kwargs & _ & _ & _ & _ & _ & _ & Hoa & Hsa & _).
  split_and!.
  - by exists (shift_loc n2).
  - intros Hmode. rewrite Hoa, lookup_union_r; [apply lookup_singleton_eq|].
    by rewrite lookup_fmap, Hmode.
  - intros k v Hk Hatom. rewrite Hoa. apply lookup_union_Some_l.
    rewrite lookup_fmap, Hk. simpl. f_equal. destruct v; try done. by destruct (Hatom l).
  - intros k Hk Hnone. rewrite Hoa, lookup_union_r; [by apply lookup_singleton_ne|].
    by rewrite lookup_fmap, Hnone.
  - done.
  - rewrite Hsa. unfold DEFAULT_SAVE_ARGS. apply map_union_empty.
Qed.

(** C10. For every construction that returns, of arguments that exist and
    with [fs_args] not nested in itself: the objects the caller had are as
    they were; the one call made is that of the filesystem constructor, and
    its keyword arguments are those of the credentials and of [fs_args]
    without [open_args_save]; every object that these keyword arguments,
    the writer's [_fs_args] or its [_fs_open_args_save] reach is new; so
    that in any heap that differs only in objects the caller had, the
    writer reaches the same objects, with the same contents. *)
Theorem construction_copies_arguments
    filepath fs_args credentials save_args layer version σ w σ' :
  valid_arg (heap σ) fs_args →
  valid_arg (heap σ) save_args →
  not_self_nested (heap σ) fs_args →
  __init__ filepath fs_args credentials save_args layer version σ = (Returns w, σ') →
  (∀ a, is_Some (heap σ !! a) → heap σ' !! a = heap σ !! a) ∧
  (∃ kwargs : dict,
     events_since σ σ' = [EvFilesystem (_protocol w) kwargs] ∧
     dom kwargs =
       dom (caller_mapping (heap σ) credentials)
       ∪ (dom (caller_mapping (heap σ) fs_args) ∖ {[ "open_args_save" ]}) ∧
     (caller_mapping (heap σ) credentials !! "open_args_save" = None →
        kwargs !! "open_args_save" = None) ∧
     (∀ k l b, kwargs !! k = Some (VRef l) → reaches (heap σ') l b →
        heap σ !! b = None)) ∧
  (∀ b, reaches (heap σ') (_fs_args w) b ∨ reaches (heap σ') (_fs_open_args_save w) b →
     heap σ !! b = None) ∧
  (∀ h'' : heap_t,
     (∀ a, heap σ !! a = None → h'' !! a = heap σ' !! a) →
     ∀ b, reaches h'' (_fs_args w) b ∨ reaches h'' (_fs_open_args_save w) b →
       (reaches (heap σ') (_fs_args w) b ∨ reaches (heap σ') (_fs_open_args_save w) b) ∧
       h'' !! b = heap σ' !! b).
Proof.
  intros Hvf Hvs Hnest Hinit.
  destruct (init_returns _ _ _ _ _ _ _ _ _ Hvf Hvs Hnest Hinit)
    as (n2 & kwargs & _ & Hframe & Hfa & Hoa & Hreg & _ & _ & _ & Hlog & Hkw & Hkwref).
  set (n0 := next_loc (heap σ)) in *.
  assert (∀ a b, (n0 ≤ a)%nat → a < _save_args w → reaches (heap σ') a b →
            (n0 ≤ b)%nat ∧ b < _save_args w) as Hreach.
  { intros a b Hle Hlt Hab. induction Hab as [a|a c b (d & k & Ha & Hk) _ IH]; [done|].
    destruct (Hreg a d k c Ha Hle Hlt Hk) as [? ?]. by apply IH. }
  assert (∀ b, (n0 ≤ b)%nat → heap σ !! b = None) as Hnew
    by (intros b Hb; by apply next_loc_le_absent).
  split_and!.
  - intros a Ha. apply Hframe. by apply next_loc_key.
  - exists kwargs. split_and!.
    + by apply events_since_app.
    + rewrite Hkw, dom_union_L, dom_delete_L, !dom_fmap_L. done.
    + intros Hnone. rewrite Hkw. apply lookup_union_None. split.
      * by rewrite lookup_fmap, Hnone.
      * apply lookup_delete_eq.
    + intros k l b Hk Hlb. destruct (Hkwref k l Hk) as [? ?].
      apply Hnew. by eapply Hreach.
  - intros b [Hb|Hb]; apply Hnew; eapply Hreach; try exact Hb; lia.
  - intros h'' Hsame.
    assert (∀ a b, (n0 ≤ a)%nat → a < _save_args w → reaches h'' a b →
              reaches (heap σ') a b ∧ h'' !! b = heap σ' !! b) as Hsim.
    { intros a b Hle Hlt Hab.
      induction Hab as [a|a c b (d & k & Ha & Hk) _ IH].
      - split; [done|]. by apply Hsame, Hnew.
      - rewrite Hsame in Ha by (by apply Hnew).
        destruct (Hreg a d k c Ha Hle Hlt Hk) as [? ?].
        destruct IH as [IH1 IH2]; [done..|]. split; [|done].
        eapply rtc_l; [|done]. by exists d, k. }
    intros b [Hb|Hb].
    + destruct (Hsim _ _ (proj1 Hfa) (proj2 Hfa) Hb). split; [by left|done].
    + destruct (Hsim _ _ (proj1 Hoa) (proj2 Hoa) Hb). split; [by right|done].
Qed.

End claims.

(** * The writer on the in-memory filesystem *)

Import (hints) MemFS.

Section on_memfs.
Context {Plot : Type}.
Context `{!Encoder Plot, !KedroCore}.
Implicit Types (σ : World MemFS.t) (w : Writer).





End on_memfs.


(** * The claims on the example worlds *)




(** C3 at a concrete input: two plots saved with a generated version. *)
Lemma one_version_per_save_witness :
  let σ := Examples.fresh in
  let σ' := (_save Examples.versioned Examples.two_plots σ).2 in
  _version Examples.versioned = Some (mkVersion None None) ∧
  _save Examples.versioned Examples.two_plots σ = (Returns (), σ') ∧
  exists_calls (events_since σ σ') =
    replicate 2 "bucket/2020-01-01T00.00.0/plot.png".
Proof.
  cbv zeta.
  assert (_save Examples.versioned Examples.two_plots Examples.fresh =
          (Returns (), (_save Examples.versioned Examples.two_plots Examples.fresh).2))
    as Hs by (vm_compute; reflexivity).
  split_and!; [reflexivity|exact Hs|].
  destruct (one_version_per_save Examples.versioned Examples.two_plots Examples.fresh)
    as (_ & _ & _ & Hcalls & _).
  exact (Hcalls _ _ eq_refl Hs).
Defined.

(** C3 as stated fails: the path is resolved for every element.  A save of
    two plots asks the filesystem about the versioned path twice; and on a
    filesystem that answers from the store, the second answer is that the
    path exists (the first plot was written under it), so that the second
    plot is refused and never written. *)
Lemma one_version_per_save_counterexample :
  exists_calls
    (events_since Examples.fresh
       (_save Examples.versioned Examples.two_plots Examples.fresh).2) =
    ["bucket/2020-01-01T00.00.0/plot.png"; "bucket/2020-01-01T00.00.0/plot.png"] ∧
  (_save Examples.versioned Examples.two_plots Examples.fresh_uncached).1 =
    Raises (DataSetError
      "Save path `bucket/2020-01-01T00.00.0/plot.png` for MatplotlibVersionedWriter(filepath=bucket/plot.png) must not exist if versioning is enabled.") ∧
  writes
    (events_since Examples.fresh_uncached
       (_save Examples.versioned Examples.two_plots Examples.fresh_uncached).2) =
    [("bucket/2020-01-01T00.00.0/plot.png/0.png", String.list_byte_of_string "png:a")].
Proof. vm_compute. repeat split; reflexivity. Qed.

(** C6 at a concrete input. *)
Lemma plain_mode_resolves_declared_path_witness :
  _version Examples.plain = None ∧
  _get_save_path Examples.plain Examples.fresh = (Returns "bucket/plot.png", Examples.fresh).
Proof.
  split; [reflexivity|].
  exact (proj1 (plain_mode_resolves_declared_path (Plot := string) Examples.plain eq_refl)
           Examples.fresh).
Defined.





(** C8 at a concrete input: the caller's [open_args_save] gives no mode, and
    the caller gives two encoder arguments. *)
Lemma construction_merges_arguments_witness :
  let σ := Examples.caller_world in
  let w := mkWriter "bucket/plot.png" "memory" None None 63 64 66 in
  let init := __init__ "memory://bucket/plot.png" (VRef 20) (VRef 10) (VRef 30) None None in
  let σ' := (init σ).2 in
  valid_arg (heap σ) (VRef 20) ∧
  valid_arg (heap σ) (VRef 30) ∧
  not_self_nested (heap σ) (VRef 20) ∧
  init σ = (Returns w, σ') ∧
  (heap σ' !!! _fs_open_args_save w : dict) !! "mode" = Some (VStr "wb") ∧
  (heap σ' !!! _fs_open_args_save w : dict) !! "compression" = Some (VStr "gzip") ∧
  (heap σ' !!! _save_args w : dict) = caller_mapping (heap σ) (VRef 30).
Proof.
  cbv zeta.
  assert (valid_arg (heap Examples.caller_world) (VRef 20)) as Hvf
    by (vm_compute; eexists; reflexivity).
  assert (valid_arg (heap Examples.caller_world) (VRef 30)) as Hvs
    by (vm_compute; eexists; reflexivity).
  assert (not_self_nested (heap Examples.caller_world) (VRef 20)) as Hnest
    by (vm_compute; discriminate).
  assert (__init__ "memory://bucket/plot.png" (VRef 20) (VRef 10) (VRef 30) None None
            Examples.caller_world =
          (Returns (mkWriter "bucket/plot.png" "memory" None None 63 64 66),
           (__init__ "memory://bucket/plot.png" (VRef 20) (VRef 10) (VRef 30) None None
              Examples.caller_world).2)) as Hinit
    by (vm_compute; reflexivity).
  destruct (construction_merges_arguments _ _ _ _ _ _ _ _ _ Hvf Hvs Hnest Hinit)
    as (_ & Hmode & Hkept & _ & _ & Hsave).
  split_and!; [exact Hvf|exact Hvs|exact Hnest|exact Hinit| | |exact Hsave].
  - apply Hmode. vm_compute. reflexivity.
  - apply Hkept; [vm_compute; reflexivity|discriminate].
Defined.

(** C10 at a concrete input: the caller's [fs_args] still has its
    [open_args_save]; the filesystem constructor was not given it. *)
Lemma construction_copies_arguments_witness :
  let σ := Examples.caller_world in
  let w := mkWriter "bucket/plot.png" "memory" None None 63 64 66 in
  let init := __init__ "memory://bucket/plot.png" (VRef 20) (VRef 10) (VRef 30) None None in
  let σ' := (init σ).2 in
  valid_arg (heap σ) (VRef 20) ∧
  valid_arg (heap σ) (VRef 30) ∧
  not_self_nested (heap σ) (VRef 20) ∧
  init σ = (Returns w, σ') ∧
  heap σ' !! 20 = heap σ !! 20 ∧
  (∃ kwargs : dict,
     events_since σ σ' = [EvFilesystem "memory" kwargs] ∧
     kwargs !! "open_args_save" = None).
Proof.
  cbv zeta.
  assert (valid_arg (heap Examples.caller_world) (VRef 20)) as Hvf
    by (vm_compute; eexists; reflexivity).
  assert (valid_arg (heap Examples.caller_world) (VRef 30)) as Hvs
    by (vm_compute; eexists; reflexivity).
  assert (not_self_nested (heap Examples.caller_world) (VRef 20)) as Hnest
    by (vm_compute; discriminate).
  assert (__init__ "memory://bucket/plot.png" (VRef 20) (VRef 10) (VRef 30) None None
            Examples.caller_world =
          (Returns (mkWriter "bucket/plot.png" "memory" None None 63 64 66),
           (__init__ "memory://bucket/plot.png" (VRef 20) (VRef 10) (VRef 30) None None
              Examples.caller_world).2)) as Hinit
    by (vm_compute; reflexivity).
  destruct (construction_copies_arguments _ _ _ _ _ _ _ _ _ Hvf Hvs Hnest Hinit)
    as (Hkept & (kwargs & Hev & _ & Hnone & _) & _).
  split_and!; [exact Hvf|exact Hvs|exact Hnest|exact Hinit| |].
  - apply Hkept. exact Hvf.
  - exists kwargs. split; [exact Hev|]. apply Hnone. vm_compute. reflexivity.
Defined.

(** * Further properties of saving *)

Section further.
Context {FS Handle Plot : Type}.
Context `{!FileSystem FS Handle, !Encoder Plot, !KedroCore}.
Implicit Types (σ : World FS) (w : Writer).

(** X4. Saving an empty list or an empty mapping is the cache invalidation
    and nothing more: one call to the filesystem, that invalidation; no
    existence query, even with a version descriptor; no version generated;
    no object changed. *)
Theorem empty_collection_only_invalidates w σ :
  _save w (PlotList ([] : list Plot)) σ = _invalidate_cache w σ ∧
  _save w (PlotDict ([] : list (string * Plot))) σ = _invalidate_cache w σ ∧
  events_since σ (_invalidate_cache w σ).2 = [EvInvalidate (declared_path w)] ∧
  heap (_invalidate_cache w σ).2 = heap σ ∧
  version_cache (_invalidate_cache w σ).2 = version_cache σ ∧
  clock (_invalidate_cache w σ).2 = clock σ.
Proof.
  split_and!; try (by rewrite _save_unfold);
    rewrite _invalidate_cache_unfold;
    destruct (fs_invalidate_cache _ _) as [r f1]; simpl; try done.
  by apply events_since_app.
Qed.

(** X5. A list of plots is saved exactly as the mapping that names every
    plot by its zero-based index followed by [.png]: the same outcome and
    the same world, in every world. *)
Theorem list_saved_as_indexed_mapping w (plots : list Plot) σ :
  _save w (PlotList plots) σ =
  _save w (PlotDict (imap (λ index plot, (pretty index +:+ ".png", plot)) plots)) σ.
Proof.
  rewrite !_save_unfold. simpl. by rewrite fmap_imap.
Qed.

(** X2. The encoder runs before the filesystem is touched.  When it raises
    for a plot, [_save_to_fs] raises its exception and leaves the world as
    it was: no file is opened, none is created, nothing is logged.  Without
    a version descriptor the same holds of a save whose only or first plot
    it is; the cache is not invalidated either. *)
Theorem encoding_failure_touches_nothing w (plot : Plot) σ e :
  direct_encoding w σ plot = Raises e →
  (∀ path, _save_to_fs w path plot σ = (Raises (Raised e), σ)) ∧
  (_version w = None →
   _save w (SinglePlot plot) σ = (Raises (Raised e), σ) ∧
   (∀ plots, _save w (PlotList (plot :: plots)) σ = (Raises (Raised e), σ)) ∧
   (∀ name plots, _save w (PlotDict ((name, plot) :: plots)) σ = (Raises (Raised e), σ))).
Proof.
  unfold direct_encoding. intros He.
  assert (∀ path, _save_to_fs w path plot σ = (Raises (Raised e), σ)) as Hfs.
  { intros path. by rewrite _save_to_fs_unfold, He. }
  split; [done|]. intros Hv.
  assert (∀ s, save_element w (s, plot) σ = (Raises (Raised e), σ)) as Hel.
  { intros s. unfold save_element, mbind, M_bind.
    rewrite _get_save_path_unfold, Hv. apply Hfs. }
  split_and!; [|intros plots|intros name plots]; rewrite _save_unfold; simpl;
    unfold mbind, M_bind; by rewrite Hel.
Qed.


(** X3. Once the plot is encoded, [_save_to_fs] returns exactly when
    [open], [write] and [close] all return, and has then made these three
    calls, in this order, with the encoded bytes.  When [open] raises,
    nothing is written or closed.  When [open] returns, the file object is
    closed as the last call whatever [write] did; an exception of [close]
    is the one surfaced, otherwise that of [write] is. *)
Theorem save_to_fs_outcome w path (plot : Plot) σ b :
  direct_encoding w σ plot = Returns b →
  let oa := heap σ !!! _fs_open_args_save w in
  (∀ σ', _save_to_fs w path plot σ = (Returns (), σ') ↔
     ∃ h f1 f2 f3,
       fs_open path oa (fs σ) = (Returns h, f1) ∧
       fh_write h b f1 = (Returns (), f2) ∧
       fh_close h f2 = (Returns (), f3) ∧
       σ' = mkWorld (heap σ) f3 (version_cache σ) (clock σ)
              (log σ ++ [EvOpen path oa true; EvWrite path b true; EvClose path])) ∧
  (∀ e f1, fs_open path oa (fs σ) = (Raises e, f1) →
     _save_to_fs w path plot σ =
     (Raises (Raised e),
      mkWorld (heap σ) f1 (version_cache σ) (clock σ) (log σ ++ [EvOpen path oa false]))) ∧
  (∀ h f1 rw f2 rc f3,
     fs_open path oa (fs σ) = (Returns h, f1) →
     fh_write h b f1 = (rw, f2) →
     fh_close h f2 = (rc, f3) →
     (_save_to_fs w path plot σ).1 =
       match rc, rw with
       | Raises ec, _ => Raises (Raised ec)
       | Returns _, Raises ew => Raises (Raised ew)
       | Returns _, Returns _ => Returns ()
       end ∧
     fs (_save_to_fs w path plot σ).2 = f3 ∧
     last (log (_save_to_fs w path plot σ).2) = Some (EvClose path)).
Proof.
  unfold direct_encoding. intros Hb. cbv zeta. split_and!.
  - intros σ'. rewrite _save_to_fs_unfold, Hb. cbv zeta. split.
    + destruct (fs_open _ _ _) as [[h|e] f1] eqn:Ho; [|done].
      destruct (fh_write h b f1) as [[[]|ew] f2] eqn:Hw,
        (fh_close h f2) as [[[]|ec] f3] eqn:Hc; simpl; try done.
      intros [= <-]. by exists h, f1, f2, f3.
    + intros (h & f1 & f2 & f3 & Ho & Hw & Hc & ->). cbv beta iota zeta. by rewrite Ho, Hw, Hc.
  - intros e f1 Ho. rewrite _save_to_fs_unfold, Hb. cbv beta iota zeta. by rewrite Ho.
  - intros h f1 rw f2 rc f3 Ho Hw Hc.
    rewrite _save_to_fs_unfold, Hb. cbv beta iota zeta. rewrite Ho, Hw, Hc. simpl.
    split_and!; [|done|].
    + by destruct rc as [[]|ec], rw as [[]|ew].
    + change [EvOpen path (heap σ !!! _fs_open_args_save w) true; EvWrite path b (is_returned rw); EvClose path]
        with ([EvOpen path (heap σ !!! _fs_open_args_save w) true; EvWrite path b (is_returned rw)] ++ [EvClose path]).
      rewrite app_assoc. apply last_snoc.
Qed.


Lemma events_since_trans σ σ1 σ2 evs1 evs2 :
  log σ1 = log σ ++ evs1 → log σ2 = log σ1 ++ evs2 →
  events_since σ σ2 = evs1 ++ evs2.
Proof. intros H1 H2. apply events_since_app. by rewrite H2, H1, app_assoc. Qed.

(** Every [open] of an element is made with the writer's open arguments. *)
Lemma save_element_open_kwargs w (x : option string * Plot) σ :
  ∃ evs, log (save_element w x σ).2 = log σ ++ evs ∧
    Forall (λ kwargs, kwargs = heap σ !!! _fs_open_args_save w) (open_kwargs evs).
Proof.
  unfold save_element, mbind, M_bind. rewrite _get_save_path_unfold.
  destruct (_version w) as [v|].
  - cbv zeta. destruct (fs_exists _ (fs σ)) as [[b|e] f1]; simpl.
    2:{ eexists [_]. split; [done|]. constructor. }
    destruct (b && negb (multi_file w σ)); simpl.
    { eexists [_]. split; [done|]. constructor. }
    rewrite _save_to_fs_unfold; simpl.
    destruct (savefig x.2 _) as [bs|e]; simpl.
    2:{ eexists [_]. split; [done|]. constructor. }
    destruct (fs_open _ _ f1) as [[hd|e] f2]; simpl.
    2:{ eexists [_; _]. split; [by rewrite <-app_assoc|]. by repeat constructor. }
    destruct (fh_write hd bs f2) as [rw f3], (fh_close hd f3) as [rc f4]; simpl.
    eexists [_; _; _; _]. split; [by rewrite <-app_assoc|]. by repeat constructor.
  - rewrite _save_to_fs_unfold; simpl.
    destruct (savefig x.2 _) as [bs|e]; simpl.
    2:{ exists []. split; [by rewrite app_nil_r|]. constructor. }
    destruct (fs_open _ _ (fs σ)) as [[hd|e] f2]; simpl.
    2:{ eexists [_]. split; [done|]. by repeat constructor. }
    destruct (fh_write hd bs f2) as [rw f3], (fh_close hd f3) as [rc f4]; simpl.
    eexists [_; _; _]. split; [done|]. by repeat constructor.
Qed.

Lemma for_each_open_kwargs w (xs : list (option string * Plot)) σ :
  ∃ evs, log (for_each xs (save_element w) σ).2 = log σ ++ evs ∧
    Forall (λ kwargs, kwargs = heap σ !!! _fs_open_args_save w) (open_kwargs evs).
Proof.
  revert σ. induction xs as [|x xs IH]; intros σ; simpl.
  { exists []. split; [by rewrite app_nil_r|constructor]. }
  unfold mbind, M_bind.
  destruct (save_element_open_kwargs w x σ) as (evs1 & Hl1 & Ho1).
  pose proof (save_element_steady w x σ) as (Hh & _).
  destruct (save_element w x σ) as [[[]|e] σ1]; simpl in *; [|by exists evs1].
  destruct (IH σ1) as (evs2 & Hl2 & Ho2). exists (evs1 ++ evs2). split.
  - by rewrite Hl2, Hl1, app_assoc.
  - unfold open_kwargs in *. rewrite omap_app. apply Forall_app. split; [done|].
    by rewrite <-Hh.
Qed.

(** X1. Every [open] that a save makes, however the save ends, is given the
    contents of the writer's [_fs_open_args_save] as keyword arguments; and a
    save that returns has opened one file per plot, in the order of the
    payload, at the plot's path. *)
Theorem every_open_uses_open_args w (data : Payload Plot) σ :
  Forall (λ kwargs, kwargs = heap σ !!! _fs_open_args_save w)
    (open_kwargs (events_since σ (_save w data σ).2)) ∧
  (∀ σ', _save w data σ = (Returns (), σ') →
     open_calls (events_since σ σ') =
       (λ x, key_path (get_filepath_str (save_path_in w σ) (_protocol w)) x.1)
         <$> elements_of data).
Proof.
  split.
  - rewrite _save_unfold.
    destruct (for_each_open_kwargs w (elements_of data) σ) as (evs & Hl & Ho).
    destruct (for_each _ _ σ) as [[[]|e] σ1]; simpl in *.
    + rewrite _invalidate_cache_unfold.
      destruct (fs_invalidate_cache _ (fs σ1)) as [r f1]; simpl.
      rewrite (events_since_app σ _ (evs ++ [EvInvalidate (declared_path w)]))
        by (simpl; by rewrite Hl, <-app_assoc).
      unfold open_kwargs in *. rewrite omap_app. simpl. by rewrite app_nil_r.
    + by rewrite (events_since_app _ _ _ Hl).
  - intros σ' Hs. apply _save_returns_trace in Hs as (bs & Hbs & ->).
    unfold open_calls. rewrite omap_app. simpl. rewrite app_nil_r.
    induction Hbs as [|x b xs bs _ _ IH]; [done|].
    simpl. rewrite omap_app, IH. f_equal.
    unfold element_events. by destruct (_version w).
Qed.

(** X6. No method called after construction changes a Python object: the
    heap is the same after [_save], [_save_to_fs], [_get_save_path],
    [_exists], [_release] and [_load], however they end.  So the writer's
    encoder arguments, and with them the encoding of a plot and the
    [multiFile] condition, are the same for the next save. *)
Theorem methods_keep_python_objects w σ :
  (∀ data : Payload Plot, heap (_save w data σ).2 = heap σ) ∧
  (∀ path (plot : Plot), heap (_save_to_fs w path plot σ).2 = heap σ) ∧
  heap (_get_save_path w σ).2 = heap σ ∧
  heap (_exists w σ).2 = heap σ ∧
  heap (_release w σ).2 = heap σ ∧
  heap (_load w σ).2 = heap σ ∧
  (∀ (data : Payload Plot) (plot : Plot),
     direct_encoding w (_save w data σ).2 plot = direct_encoding w σ plot) ∧
  (∀ data : Payload Plot, multi_file w (_save w data σ).2 = multi_file w σ).
Proof.
  assert (∀ data : Payload Plot, heap (_save w data σ).2 = heap σ) as Hsave
    by (intros data; apply _save_frame).
  split_and!.
  - done.
  - intros path plot. rewrite _save_to_fs_unfold.
    destruct (savefig plot _); [|done]. cbv zeta.
    destruct (fs_open _ _ _) as [[h|e] f1]; [|done].
    by destruct (fh_write h _ f1) as [rw f2], (fh_close h f2) as [rc f3].
  - rewrite _get_save_path_unfold. destruct (_version w); [|done].
    cbv zeta. by destruct (fs_exists _ _).
  - unfold _exists, exists_. unfold_M. simpl. by destruct (fs_exists _ _).
  - unfold _release, super_release. unfold_M. rewrite _invalidate_cache_unfold.
    simpl. by destruct (fs_invalidate_cache _ _).
  - done.
  - intros data plot. unfold direct_encoding. by rewrite Hsave.
  - intros data. unfold multi_file. by rewrite Hsave.
Qed.

(** X7. An exception that [_save] ends with is either one that the
    filesystem or the encoder raised, passed on as it is, or the error of the
    guard in [_get_save_path]: then the writer has a version descriptor,
    [multiFile] is absent or falsy, the message names the resolved
    versioned path, and the existence query of that path is the last call
    made. *)
Theorem save_raises_guard_or_collaborator w (data : Payload Plot) σ e σ' :
  _save w data σ = (Raises e, σ') →
  (∃ b, e = Raised b) ∨
  (is_Some (_version w) ∧ multi_file w σ = false ∧
   e = DataSetError (must_not_exist_message w (save_path_in w σ)) ∧
   last (events_since σ σ') = Some (EvExists (str (save_path_in w σ)))).
Proof.
  assert (∀ x σk e σ', save_element w x σk = (Raises e, σ') →
            (∃ b, e = Raised b) ∨
            (is_Some (_version w) ∧ multi_file w σk = false ∧
             e = DataSetError (must_not_exist_message w (save_path_in w σk)) ∧
             log σ' = log σk ++ [EvExists (str (save_path_in w σk))])) as Hel.
  { clear. intros x σk e σ'. unfold save_element, mbind, M_bind.
    rewrite _get_save_path_unfold. unfold save_path_in.
    destruct (_version w) as [v|]; cbv zeta.
    - destruct (fs_exists _ (fs σk)) as [[b|eb] f1]; simpl.
      2:{ intros [= <- <-]. left. by eexists. }
      destruct (multi_file w σk) eqn:Hm; simpl.
      + rewrite andb_false_r, _save_to_fs_unfold; simpl.
        destruct (savefig x.2 _) as [bs|eb]; simpl.
        2:{ intros [= <- <-]. left. by eexists. }
        destruct (fs_open _ _ f1) as [[hd|eb] f2]; simpl.
        2:{ intros [= <- <-]. left. by eexists. }
        destruct (fh_write hd bs f2) as [[[]|ew] f3], (fh_close hd f3) as [[[]|ec] f4];
          simpl; intros [= <- <-]; left; by eexists.
      + rewrite andb_true_r. destruct b; simpl.
        { intros [= <- <-]. right. by split_and!. }
        rewrite _save_to_fs_unfold; simpl.
        destruct (savefig x.2 _) as [bs|eb]; simpl.
        2:{ intros [= <- <-]. left. by eexists. }
        destruct (fs_open _ _ f1) as [[hd|eb] f2]; simpl.
        2:{ intros [= <- <-]. left. by eexists. }
        destruct (fh_write hd bs f2) as [[[]|ew] f3], (fh_close hd f3) as [[[]|ec] f4];
          simpl; intros [= <- <-]; left; by eexists.
    - rewrite _save_to_fs_unfold; simpl.
      destruct (savefig x.2 _) as [bs|eb]; simpl.
      2:{ intros [= <- <-]. left. by eexists. }
      destruct (fs_open _ _ (fs σk)) as [[hd|eb] f2]; simpl.
      2:{ intros [= <- <-]. left. by eexists. }
      destruct (fh_write hd bs f2) as [[[]|ew] f3], (fh_close hd f3) as [[[]|ec] f4];
        simpl; intros [= <- <-]; left; by eexists. }
  rewrite _save_unfold.
  destruct (for_each _ _ σ) as [[[]|e1] σ1] eqn:Hloop.
  - rewrite _invalidate_cache_unfold.
    destruct (fs_invalidate_cache _ (fs σ1)) as [[[]|eb] f1]; simpl; [done|].
    intros [= <- <-]. left. by eexists.
  - intros [= -> ->].
    apply for_each_raises in Hloop as (k & x & σk & _ & Hpre & Hx).
    pose proof (for_each_steady w (take k (elements_of data)) σ) as Hst.
    rewrite Hpre in Hst; simpl in Hst.
    apply Hel in Hx as [Hb|(Hv & Hm & He & Hl)]; [by left|right].
    rewrite (multi_file_steady w σ σk) in Hm by done.
    destruct Hst as (_ & Hp & _ & evs & Hlk & _). rewrite Hp in He, Hl.
    split_and!; [done..|].
    rewrite (events_since_trans _ _ _ _ _ Hlk Hl). apply last_snoc.
Qed.

(** X8. With a version descriptor and [multiFile] absent or falsy: after a
    save that returned, if the filesystem reports the path that save
    resolved as existing, a further save of at least one plot by the same
    writer resolves the same path and is refused with the "must not exist"
    error, after one existence query and nothing else. *)
Theorem second_versioned_save_is_refused w (data data' : Payload Plot) σ σ1 f1 :
  is_Some (_version w) →
  multi_file w σ = false →
  _save w data σ = (Returns (), σ1) →
  elements_of data' ≠ [] →
  fs_exists (str (save_path_in w σ)) (fs σ1) = (Returns true, f1) →
  ∃ σ2, _save w data' σ1 =
          (Raises (DataSetError (must_not_exist_message w (save_path_in w σ))), σ2) ∧
    events_since σ1 σ2 = [EvExists (str (save_path_in w σ))] ∧
    fs σ2 = f1.
Proof.
  intros [v Hv] Hm Hs Hne Hex.
  destruct (_save_frame w data σ) as (Hh & Hp & _). rewrite Hs in Hh, Hp. simpl in *.
  assert (multi_file w σ1 = false) as Hm1 by (unfold multi_file in *; by rewrite Hh).
  rewrite _save_unfold.
  destruct (elements_of data') as [|x xs]; [done|]. simpl.
  unfold mbind at 1. unfold M_bind at 1.
  unfold save_element at 1. unfold mbind at 1. unfold M_bind at 1.
  rewrite _get_save_path_unfold. rewrite <-Hp in *. unfold save_path_in in *.
  rewrite Hv in *. cbv zeta. rewrite Hex, Hm1. simpl.
  eexists. split; [done|]. split; [|done]. by apply events_since_app.
Qed.

End further.

(** * Further properties of construction *)

Section construction_outcomes.
Context {FS Handle : Type}.
Context `{!FileSystem FS Handle, !KedroCore}.
Implicit Types (σ : World FS) (w : Writer).

Lemma bind_inv {A B} (m : M FS A) (f : A → M FS B) σ r σ' :
  (m ≫= f) σ = (r, σ') →
  (∃ a σ1, m σ = (Returns a, σ1) ∧ f a σ1 = (r, σ')) ∨
  (∃ e, m σ = (Raises e, σ') ∧ r = Raises e).
Proof.
  unfold mbind, M_bind. destruct (m σ) as [[a|e] σ1].
  - intros Hf. left. by exists a, σ1.
  - intros [= <- <-]. right. by exists e.
Qed.

Lemma deepcopy_returns v σ e σ' : deepcopy v σ ≠ (Raises e, σ').
Proof. done. Qed.

Lemma new_dict_returns (d : dict) σ e σ' : new_dict d σ ≠ (Raises e, σ').
Proof. done. Qed.

Lemma or_new_dict_returns v σ e σ' : or_new_dict v σ ≠ (Raises e, σ').
Proof. unfold or_new_dict, new_dict. unfold_M. by destruct (truthy _ _). Qed.

Lemma dict_pop_returns l key dflt σ e σ' : dict_pop l key dflt σ ≠ (Raises e, σ').
Proof. unfold dict_pop. unfold_M. by destruct (_ !! key). Qed.

Lemma dict_setdefault_returns l key value σ e σ' :
  dict_setdefault l key value σ ≠ (Raises e, σ').
Proof. unfold dict_setdefault. unfold_M. by destruct (_ !! key). Qed.

(** [copy.deepcopy(v) or {}] of a mapping or [None] is a dict object. *)
Lemma prep_is_ref (v c v' : val) σ σ1 σ2 :
  mapping_or_none v →
  deepcopy v σ = (Returns c, σ1) →
  or_new_dict c σ1 = (Returns v', σ2) →
  ∃ l, v' = VRef l.
Proof.
  unfold deepcopy, or_new_dict, new_dict. unfold_M. intros Hv [= <- <-].
  destruct (truthy _ _) eqn:Ht; intros [= <- <-]; [|by eexists].
  destruct v; try done. simpl. by eexists.
Qed.


Lemma new_filesystem_unfold protocol (kwargs : dict) σ :
  new_filesystem protocol kwargs σ =
  match filesystem protocol kwargs with
  | Returns f =>
      (Returns (), mkWorld (heap σ) f (version_cache σ) (clock σ)
                     (log σ ++ [EvFilesystem protocol kwargs]))
  | Raises e =>
      (Raises (Raised e), mkWorld (heap σ) (fs σ) (version_cache σ) (clock σ)
                            (log σ ++ [EvFilesystem protocol kwargs]))
  end.
Proof. unfold new_filesystem. unfold_M. by destruct (filesystem protocol kwargs). Qed.

(** How a construction ends, by the caller's arguments: with an
    [AttributeError] when the [open_args_save] entry is not a dict; with a
    [TypeError] when the credentials and the remaining filesystem
    arguments share a keyword; otherwise as the filesystem constructor
    ends. *)
Lemma init_anatomy filepath fs_args credentials save_args layer version σ r σ' :
  mapping_or_none fs_args → mapping_or_none credentials → mapping_or_none save_args →
  valid_arg (heap σ) fs_args →
  valid_arg (heap σ) save_args →
  not_self_nested (heap σ) fs_args →
  __init__ filepath fs_args credentials save_args layer version σ = (r, σ') →
  (∀ a, a < next_loc (heap σ) → heap σ' !! a = heap σ !! a) ∧
  ∃ ρc ρf : loc → loc,
    (∃ v msg, caller_mapping (heap σ) fs_args !! "open_args_save" = Some v ∧
       (∀ l, v ≠ VRef l) ∧
       r = Raises (AttributeError msg) ∧ log σ' = log σ) ∨
    ((∀ v, caller_mapping (heap σ) fs_args !! "open_args_save" = Some v → ∃ l, v = VRef l) ∧
     ((¬ caller_mapping (heap σ) credentials
           ##ₘ delete "open_args_save" (caller_mapping (heap σ) fs_args) ∧
       ∃ msg, r = Raises (TypeError msg) ∧ log σ' = log σ) ∨
      (caller_mapping (heap σ) credentials
         ##ₘ delete "open_args_save" (caller_mapping (heap σ) fs_args) ∧
       log σ' = log σ ++
         [EvFilesystem (get_protocol_and_path filepath version).1
            ((rename_val ρc <$> caller_mapping (heap σ) credentials)
             ∪ delete "open_args_save" (rename_val ρf <$> caller_mapping (heap σ) fs_args))] ∧
       match filesystem (get_protocol_and_path filepath version).1
               ((rename_val ρc <$> caller_mapping (heap σ) credentials)
                ∪ delete "open_args_save" (rename_val ρf <$> caller_mapping (heap σ) fs_args)) with
       | Raises e => r = Raises (Raised e)
       | Returns f =>
           (∃ w, r = Returns w ∧
              _filepath w = PurePosixPath (get_protocol_and_path filepath version).2 ∧
              _protocol w = (get_protocol_and_path filepath version).1 ∧
              _version w = version ∧ _layer w = layer) ∧
           fs σ' = f
       end))).
Proof.
  intros Mf Mc Ms Hvf Hvs Hnest Hinit. unfold __init__ in Hinit.
  apply bind_inv in Hinit as [(c & σ1 & Hc & Hinit)|(e & He & _)];
    [|by apply deepcopy_returns in He].
  apply bind_inv in Hinit as [(cred_v & σ2 & Hcred & Hinit)|(e & He & _)];
    [|by apply or_new_dict_returns in He].
  apply bind_inv in Hinit as [(f & σ3 & Hf & Hinit)|(e & He & _)];
    [|by apply deepcopy_returns in He].
  apply bind_inv in Hinit as [(fs_v & σ4 & Hfs & Hinit)|(e & He & _)];
    [|by apply or_new_dict_returns in He].
  apply bind_inv in Hinit as [(dflt & σ5 & Hdflt & Hinit)|(e & He & _)];
    [|by apply new_dict_returns in He].
  destruct (prep_is_ref _ _ _ _ _ _ Mc Hc Hcred) as [lc ->].
  destruct (prep_is_ref _ _ _ _ _ _ Mf Hf Hfs) as [fa ->].
  apply bind_inv in Hinit as [(fa' & σ5' & Hfa & Hinit)|(e & He & _)]; [|done].
  apply as_dict_inv in Hfa as [[= <-] ->].
  apply bind_inv in Hinit as [(popped & σ6 & Hpop & Hinit)|(e & He & _)];
    [|by apply dict_pop_returns in He].
  (* the two deep copies *)
  set (n0 := next_loc (heap σ)).
  destruct (prep_returns _ _ _ _ _ _ Hc Hcred) as (E1 & F1 & _ & _ & C1).
  fold n0 in F1, C1.
  set (n2 := next_loc (heap σ2)) in *.
  assert (n0 ≤ n2)%nat as Hn02 by (by apply next_loc_mono).
  destruct (prep_returns _ _ _ _ _ _ Hf Hfs) as (E2 & F2 & _ & O2 & C2).
  fold n2 in F2, O2, C2.
  rewrite (caller_mapping_frame (heap σ) (heap σ2) fs_args Hvf F1) in O2, C2.
  clear Hc Hcred Hf Hfs c f σ1 σ3.
  set (Df := caller_mapping (heap σ) fs_args) in *.
  set (Dc := caller_mapping (heap σ) credentials) in *.
  set (ρ := rename_val (shift_loc n2)) in *.
  apply new_dict_inv in Hdflt as [-> ->].
  destruct (C2 fa eq_refl) as (Hfa_ge & Hfa_in & Hfa_eq & Hchild). clear C2.
  destruct (C1 lc eq_refl) as (Hlc_ge & Hlc_in & Hlc_eq & _). clear C1.
  set (a5 := next_loc (heap σ4)) in *.
  assert (fa < a5) as Hfa5 by (by apply next_loc_key).
  assert (n2 ≤ a5)%nat as Hn25 by (by apply next_loc_mono).
  assert (lc < n2) as Hlc2 by (by apply next_loc_key).
  assert ((<[a5 := ∅]> (heap σ4) : heap_t) !!! fa = ρ <$> Df) as Hfa5_eq.
  { rewrite lookup_total_insert_ne by lia. done. }
  assert (log σ2 = log σ ∧ fs σ2 = fs σ) as [L2 S2] by (by rewrite E1).
  assert (log σ4 = log σ ∧ fs σ4 = fs σ) as [L4 S4] by (by rewrite E2).
  assert ((∃ v, Df !! "open_args_save" = Some v ∧ (∀ l, v ≠ VRef l) ∧ popped = v ∧
             log σ6 = log σ ∧ (∀ a, a < n0 → heap σ6 !! a = heap σ !! a)) ∨
          (∃ oa, popped = VRef oa ∧
             (∀ v, Df !! "open_args_save" = Some v → ∃ l, v = VRef l) ∧
             oa ≠ fa ∧ (n2 ≤ oa)%nat ∧
             heap σ6 !!! fa = delete "open_args_save" (ρ <$> Df) ∧
             (∀ a, a < n2 → heap σ6 !! a = heap σ2 !! a) ∧
             log σ6 = log σ ∧ fs σ6 = fs σ)) as Hblock.
  { apply dict_pop_inv in Hpop as [[Hkey ->]|(Hkey & -> & ->)];
      cbn [heap set_heap log fs] in *; rewrite Hfa5_eq in Hkey.
    - rewrite lookup_fmap in Hkey.
      destruct (Df !! "open_args_save") as [v0|] eqn:Hv0; [|done].
      injection Hkey as <-.
      assert (∀ a, a < n2 →
                (<[fa := delete "open_args_save" (<[a5 := ∅]> (heap σ4) !!! fa)]>
                   (<[a5 := ∅]> (heap σ4)) : heap_t) !! a = heap σ2 !! a) as F6.
      { intros a Ha. rewrite !lookup_insert_ne by lia. by apply F2. }
      destruct v0 as [| | | |lo].
      1-4: left; eexists; split_and!; [done|done|done|done|];
           intros a Ha; rewrite F6 by lia; by apply F1.
      right. exists (shift_loc n2 lo).
      destruct O2 as [O2|O2]; [|by rewrite O2 in Hv0].
      destruct fs_args as [| | | |lf]; try done. injection O2 as ->.
      assert (lo ≠ lf) as Hlolf.
      { intros ->. apply Hnest. done. }
      split_and!.
      + done.
      + intros v [= <-]. by eexists.
      + unfold shift_loc. lia.
      + unfold shift_loc. lia.
      + by rewrite lookup_total_insert_eq, Hfa5_eq.
      + done.
      + done.
      + done.
    - right. exists a5. rewrite lookup_fmap in Hkey. apply fmap_None in Hkey.
      split_and!.
      + done.
      + intros v. by rewrite Hkey.
      + lia.
      + done.
      + rewrite Hfa5_eq. rewrite delete_id; [done|]. by rewrite lookup_fmap, Hkey.
      + intros a Ha. rewrite lookup_insert_ne by lia. by apply F2.
      + done.
      + done. }
  clear Hpop Hfa5_eq Hchild Hfa_eq O2.
  cut ((∀ a : nat, a < n0 → heap σ' !! a = heap σ !! a) ∧
       ((∃ v msg, Df !! "open_args_save" = Some v ∧ (∀ l, v ≠ VRef l) ∧
           r = Raises (AttributeError msg) ∧ log σ' = log σ) ∨
        ((∀ v, Df !! "open_args_save" = Some v → ∃ l, v = VRef l) ∧
         ((¬ Dc ##ₘ delete "open_args_save" Df ∧
           ∃ msg, r = Raises (TypeError msg) ∧ log σ' = log σ) ∨
          (Dc ##ₘ delete "open_args_save" Df ∧
           log σ' = log σ ++
             [EvFilesystem (get_protocol_and_path filepath version).1
                ((rename_val (shift_loc n0) <$> Dc) ∪ delete "open_args_save" (ρ <$> Df))] ∧
           match filesystem (get_protocol_and_path filepath version).1
                   ((rename_val (shift_loc n0) <$> Dc) ∪ delete "open_args_save" (ρ <$> Df)) with
           | Raises e => r = Raises (Raised e)
           | Returns f =>
               (∃ w, r = Returns w ∧
                  _filepath w = PurePosixPath (get_protocol_and_path filepath version).2 ∧
                  _protocol w = (get_protocol_and_path filepath version).1 ∧
                  _version w = version ∧ _layer w = layer) ∧
               fs σ' = f
           end))))).
  { intros [Hframe Hcases]. split; [done|]. by exists (shift_loc n0), (shift_loc n2). }
  destruct Hblock as [(v & Hv & Hnr & -> & L6 & F6)|
                      (oa & -> & Hok & Hne & Hoa_ge & H6fa & F6 & L6 & S6)].
  { (* [open_args_save] is not a dict *)
    apply bind_inv in Hinit as [(? & ? & Hbad & _)|(e & He & ->)].
    { destruct v; try done. by destruct (Hnr l). }
    destruct v; try (by destruct (Hnr l)); injection He as <- <-;
      (split; [done|]; left; by eexists _, _). }
  apply bind_inv in Hinit as [(oa' & σ6' & Hoa & Hinit)|(e & He & _)]; [|done].
  apply as_dict_inv in Hoa as [[= <-] ->].
  apply bind_inv in Hinit as [(mode & σ7 & Hmode & Hinit)|(e & He & _)];
    [|by apply dict_setdefault_returns in He].
  apply dict_setdefault_inv in Hmode as (E7 & _ & F7 & _).
  assert (log σ7 = log σ ∧ fs σ7 = fs σ) as [L7 S7] by (by rewrite E7).
  assert (∀ a, a < n0 → heap σ7 !! a = heap σ !! a) as F07.
  { intros a Ha. rewrite F7, F6, F1 by lia. done. }
  assert (heap σ7 !!! lc = rename_val (shift_loc n0) <$> Dc) as H7lc.
  { rewrite lookup_total_alt, F7, F6, <-lookup_total_alt by lia. done. }
  assert (heap σ7 !!! fa = delete "open_args_save" (ρ <$> Df)) as H7fa.
  { rewrite lookup_total_alt, F7, <-lookup_total_alt by done. done. }
  clear E7 F7 F6 H6fa L6 S6.
  destruct (get_protocol_and_path filepath version) as [protocol path]. cbn [fst snd].
  apply bind_inv in Hinit as [(cred_kwargs & σ7a & Hck & Hinit)|(e & He & _)]; [|done].
  apply kwargs_of_inv in Hck as (? & [= <-] & -> & ->).
  apply bind_inv in Hinit as [(fs_kwargs & σ7b & Hfk & Hinit)|(e & He & _)]; [|done].
  apply kwargs_of_inv in Hfk as (? & [= <-] & -> & ->).
  rewrite H7lc, H7fa in Hinit.
  assert ((rename_val (shift_loc n0) <$> Dc) ##ₘ delete "open_args_save" (ρ <$> Df) ↔
          Dc ##ₘ delete "open_args_save" Df) as Hdisj.
  { unfold ρ. by rewrite <-fmap_delete, map_disjoint_fmap. }
  unfold merge_kwargs in Hinit.
  destruct (bool_decide _) eqn:Hd in Hinit.
  2:{ apply bool_decide_eq_false in Hd. rewrite Hdisj in Hd.
      apply bind_inv in Hinit as [(? & ? & Hbad & _)|(e & He & ->)]; [done|].
      injection He as <- <-. split; [done|]. right. split; [done|]. left.
      split; [done|]. by eexists. }
  apply bool_decide_eq_true in Hd. rewrite Hdisj in Hd.
  apply bind_inv in Hinit as [(kwargs & σ7c & Hkw & Hinit)|(e & He & _)]; [|done].
  injection Hkw as <- <-.
  set (kwargs := (rename_val (shift_loc n0) <$> Dc) ∪ delete "open_args_save" (ρ <$> Df)) in *.
  apply bind_inv in Hinit as [([] & σ7d & Hnew & Hinit)|(e & He & ->)];
    rewrite new_filesystem_unfold in *; destruct (filesystem protocol kwargs) as [f|eb];
    try done.
  2:{ injection He as <- <-. cbn [heap log]. split; [done|]. right. split; [done|].
      right. by rewrite L7. }
  injection Hnew as <-.
  apply bind_inv in Hinit as [([] & σ7e & Hsuper & Hinit)|(e & He & _)]; [|by unfold super_init, modify in He].
  unfold super_init, modify in Hsuper. injection Hsuper as <-.
  apply bind_inv in Hinit as [(sa & σ8 & Hsa & Hinit)|(e & He & _)];
    [|by apply new_dict_returns in He].
  apply new_dict_inv in Hsa as [-> ->].
  apply bind_inv in Hinit as [(a8' & σ8' & Ha8 & Hinit)|(e & He & _)]; [|done].
  apply as_dict_inv in Ha8 as [[= <-] ->].
  cbn [heap set_heap set_version_cache log fs] in *.
  set (a8 := next_loc (heap σ7)) in *.
  assert (n0 ≤ a8)%nat as Hn08.
  { apply next_loc_mono. intros a Ha. by apply F07. }
  destruct save_args as [| | | |ls]; try done.
  - unfold_M. injection Hinit as <- <-. cbn [heap set_heap log fs set_version_cache].
    split; [intros a Ha; rewrite lookup_insert_ne by lia; by apply F07|].
    right. split; [done|]. right. split_and!; [done|by rewrite L7|by eexists|done].
  - unfold dict_update in Hinit. unfold_M. injection Hinit as <- <-.
    cbn [heap set_heap log fs set_version_cache].
    split; [intros a Ha; rewrite !lookup_insert_ne by lia; by apply F07|].
    right. split; [done|]. right. split_and!; [done|by rewrite L7|by eexists|done].
Qed.




(** X10. [_describe], on a writer just constructed from dict-or-[None]
    arguments, changes nothing and reports: the path and the protocol that
    [get_protocol_and_path] split the given [filepath] into, the version
    and the layer as given, and, by reference, the writer's own [_fs_args]
    and [_save_args] objects.  The [fs_args] shown are the copy of the
    caller's without [open_args_save], and share no key with the
    credentials; the [save_args] shown are the caller's. *)
Theorem description_after_construction
    filepath fs_args credentials save_args layer version σ w σ' :
  mapping_or_none fs_args → mapping_or_none credentials → mapping_or_none save_args →
  valid_arg (heap σ) fs_args →
  valid_arg (heap σ) save_args →
  not_self_nested (heap σ) fs_args →
  __init__ filepath fs_args credentials save_args layer version σ = (Returns w, σ') →
  _describe w σ' =
    (Returns {[ "filepath" := DPath (PurePosixPath (get_protocol_and_path filepath version).2);
                "protocol" := DStr (get_protocol_and_path filepath version).1;
                "fs_args" := DDict (_fs_args w);
                "save_args" := DDict (_save_args w);
                "version" := DVersion version;
                "layer" := DLayer layer ]}, σ') ∧
  (∃ ρ, heap σ' !!! _fs_args w =
          delete "open_args_save" (rename_val ρ <$> caller_mapping (heap σ) fs_args)) ∧
  (heap σ' !!! _fs_args w : dict) !! "open_args_save" = None ∧
  dom (heap σ' !!! _fs_args w : dict) ## dom (caller_mapping (heap σ) credentials) ∧
  (heap σ' !!! _save_args w : dict) = caller_mapping (heap σ) save_args.
Proof.
  intros Mf Mc Ms Hvf Hvs Hnest Hinit.
  destruct (init_returns _ _ _ _ _ _ _ _ _ Hvf Hvs Hnest Hinit)
    as (n2 & kwargs & _ & _ & _ & _ & _ & Hfa & _ & Hsa & _).
  destruct (init_anatomy _ _ _ _ _ _ _ _ _ Mf Mc Ms Hvf Hvs Hnest Hinit)
    as (_ & ρc & ρf & [(? & ? & _ & _ & [=] & _)|[_ [(_ & ? & [=] & _)|(Hd & _ & Hfs)]]]).
  destruct (filesystem _ _); [|done].
  destruct Hfs as [(w' & [= <-] & Hp & Hpr & Hv & Hl) _].
  split_and!.
  - unfold _describe. by rewrite Hp, Hpr, Hv, Hl.
  - by exists (shift_loc n2).
  - rewrite Hfa. apply lookup_delete_eq.
  - rewrite Hfa, dom_delete_L, dom_fmap_L.
    apply map_disjoint_dom in Hd. rewrite dom_delete_L in Hd. set_solver.
  - rewrite Hsa. unfold DEFAULT_SAVE_ARGS. apply map_union_empty.
Qed.

End construction_outcomes.

(** * The further properties on the example worlds *)

(** X2 at a concrete input: the first plot of a list cannot be rendered. *)
Lemma encoding_failure_touches_nothing_witness :
  direct_encoding Examples.plain Examples.fresh "broken" =
    Raises "RuntimeError: cannot render" ∧
  _save Examples.plain (PlotList ["broken"; "a"]) Examples.fresh =
    (Raises (Raised "RuntimeError: cannot render"), Examples.fresh).
Proof.
  assert (direct_encoding Examples.plain Examples.fresh "broken" =
          Raises "RuntimeError: cannot render") as He by (vm_compute; reflexivity).
  split; [exact He|].
  destruct (encoding_failure_touches_nothing Examples.plain "broken" Examples.fresh
              "RuntimeError: cannot render" He) as [_ Hsave].
  destruct (Hsave eq_refl) as (_ & Hlist & _). exact (Hlist ["a"]).
Defined.

(** X3 at a concrete input: files are opened for reading, so [write] raises;
    the file object is closed all the same. *)
Lemma save_to_fs_outcome_witness :
  let σ := Examples.world Examples.heap_read_mode Examples.saved_plain in
  direct_encoding Examples.plain σ "a" = Returns (String.list_byte_of_string "png:a") ∧
  (_save_to_fs Examples.plain "bucket/plot.png" "a" σ).1 =
    Raises (Raised "UnsupportedOperation: not writable") ∧
  last (log (_save_to_fs Examples.plain "bucket/plot.png" "a" σ).2) =
    Some (EvClose "bucket/plot.png").
Proof.
  cbv zeta.
  assert (direct_encoding Examples.plain
            (Examples.world Examples.heap_read_mode Examples.saved_plain) "a" =
          Returns (String.list_byte_of_string "png:a")) as Hb by reflexivity.
  split; [exact Hb|].
  destruct (save_to_fs_outcome Examples.plain "bucket/plot.png" "a" _ _ Hb)
    as (_ & _ & Hends).
  edestruct Hends as (Hr & _ & Hl);
    [vm_compute; reflexivity|vm_compute; reflexivity|vm_compute; reflexivity|].
  split; [exact Hr|exact Hl].
Defined.

(** X7 at a concrete input: version [v1] is in the store already. *)
Lemma save_raises_guard_or_collaborator_witness :
  let σ := Examples.world Examples.heap_default Examples.saved_v1 in
  let e := DataSetError
    "Save path `bucket/v1/plot.png` for MatplotlibVersionedWriter(filepath=bucket/plot.png) must not exist if versioning is enabled." in
  _save Examples.pinned (SinglePlot "a") σ =
    (Raises e, (_save Examples.pinned (SinglePlot "a") σ).2) ∧
  ((∃ b, e = Raised b) ∨
   (is_Some (_version Examples.pinned) ∧ multi_file Examples.pinned σ = false ∧
    e = DataSetError (must_not_exist_message Examples.pinned (save_path_in Examples.pinned σ)) ∧
    last (events_since σ (_save Examples.pinned (SinglePlot "a") σ).2) =
      Some (EvExists (str (save_path_in Examples.pinned σ))))).
Proof.
  cbv zeta.
  assert (_save Examples.pinned (SinglePlot "a")
            (Examples.world Examples.heap_default Examples.saved_v1) =
          (Raises (DataSetError
             "Save path `bucket/v1/plot.png` for MatplotlibVersionedWriter(filepath=bucket/plot.png) must not exist if versioning is enabled."),
           (_save Examples.pinned (SinglePlot "a")
              (Examples.world Examples.heap_default Examples.saved_v1)).2)) as Hs
    by (vm_compute; reflexivity).
  split; [exact Hs|].
  exact (save_raises_guard_or_collaborator _ _ _ _ _ Hs).
Defined.

(** X8 at a concrete input: two saves with a generated version, on a
    filesystem that answers from the store. *)
Lemma second_versioned_save_is_refused_witness :
  let σ := Examples.fresh_uncached in
  let σ1 := (_save Examples.versioned (SinglePlot "a") σ).2 in
  _save Examples.versioned (SinglePlot "a") σ = (Returns (), σ1) ∧
  (_save Examples.versioned (SinglePlot "b") σ1).1 =
    Raises (DataSetError
      "Save path `bucket/2020-01-01T00.00.0/plot.png` for MatplotlibVersionedWriter(filepath=bucket/plot.png) must not exist if versioning is enabled.").
Proof.
  cbv zeta.
  assert (_save Examples.versioned (SinglePlot "a") Examples.fresh_uncached =
          (Returns (), (_save Examples.versioned (SinglePlot "a") Examples.fresh_uncached).2))
    as Hs by (vm_compute; reflexivity).
  split; [exact Hs|].
  assert (is_Some (_version Examples.versioned)) as Hv by (by eexists).
  assert (multi_file Examples.versioned Examples.fresh_uncached = false) as Hm
    by reflexivity.
  assert (elements_of (SinglePlot "b") ≠ []) as Hne by discriminate.
  assert (fs_exists (str (save_path_in Examples.versioned Examples.fresh_uncached))
            (fs (_save Examples.versioned (SinglePlot "a") Examples.fresh_uncached).2) =
          (Returns true,
           fs (_save Examples.versioned (SinglePlot "a") Examples.fresh_uncached).2)) as Hex
    by (vm_compute; reflexivity).
  destruct (second_versioned_save_is_refused _ _ _ _ _ _ Hv Hm Hs Hne Hex)
    as (σ2 & Hr & _).
  rewrite Hr. reflexivity.
Defined.


(** X10 at a concrete input. *)
Lemma description_after_construction_witness :
  let σ := Examples.caller_world in
  let w := mkWriter "bucket/plot.png" "memory" None None 63 64 66 in
  let init := __init__ "memory://bucket/plot.png" (VRef 20) (VRef 10) (VRef 30) None None in
  let σ' := (init σ).2 in
  init σ = (Returns w, σ') ∧
  (_describe w σ').1 =
    Returns {[ "filepath" := DPath "bucket/plot.png"; "protocol" := DStr "memory";
               "fs_args" := DDict 63; "save_args" := DDict 66;
               "version" := DVersion None; "layer" := DLayer None ]} ∧
  (heap σ' !!! 63 : dict) !! "open_args_save" = None.
Proof.
  cbv zeta.
  assert (valid_arg (heap Examples.caller_world) (VRef 20)) as Hvf
    by (vm_compute; eexists; reflexivity).
  assert (valid_arg (heap Examples.caller_world) (VRef 30)) as Hvs
    by (vm_compute; eexists; reflexivity).
  assert (not_self_nested (heap Examples.caller_world) (VRef 20)) as Hnest
    by (vm_compute; discriminate).
  assert (__init__ "memory://bucket/plot.png" (VRef 20) (VRef 10) (VRef 30) None None
            Examples.caller_world =
          (Returns (mkWriter "bucket/plot.png" "memory" None None 63 64 66),
           (__init__ "memory://bucket/plot.png" (VRef 20) (VRef 10) (VRef 30) None None
              Examples.caller_world).2)) as Hinit
    by (vm_compute; reflexivity).
  destruct (description_after_construction
              "memory://bucket/plot.png" (VRef 20) (VRef 10) (VRef 30) None None
              Examples.caller_world _ _ I I I Hvf Hvs Hnest Hinit)
    as (Hd & _ & Hnone & _).
  split_and!; [exact Hinit| |exact Hnone].
  rewrite Hd. reflexivity.
Defined.
